(** * Weather lookup widget (scripts.js): model and verified properties

    The script is browser glue around one HTTP request.  The model follows
    the source function by function:

    - ECMAScript strings are sequences of UTF-16 code units ([jsstring]);
      [trim], [includes], [toLowerCase], [encodeURIComponent], [Math.round]
      and the coercions used by the source are written out from ECMA-262;
    - the page is a store of elements indexed by their id, the three cached
      element references of the script are references into that store;
    - the functions with effects run in a small state-and-exception monad
      whose state carries the page, the cached references and a trace of the
      calls made to the console, to GSAP, to [fetch] and to [setTimeout]. *)

From Stdlib Require Import ZArith NArith QArith Qround Lia Lqa.
From Stdlib Require Import Ascii String DecimalString.
From stdpp Require Import gmap strings list.

Set Warnings "-register-all".
Close Scope Q_scope.
Open Scope N_scope.

(* ================================================================== *)
(** * ECMAScript strings *)
(* ================================================================== *)

(** A string value is a finite sequence of 16-bit code units. *)
Definition jsstring := list N.

(** An ASCII literal of the source, as code units. *)
Definition js (s : string) : jsstring :=
  map N_of_ascii (list_ascii_of_string s).

(** The code units proper: 16-bit values. *)
Definition isCodeUnit (c : N) : bool := c <? 0x10000.

Definition QUOTE : jsstring := [34].
Definition NEWLINE : jsstring := [10].
Definition spaces (n : nat) : jsstring := repeat 32 n.

(** WhiteSpace and LineTerminator code points of ECMA-262, the characters
    removed by [String.prototype.trim]; all of them are single code units. *)
Definition isWhiteSpace (c : N) : bool :=
  (c =? 0x09) || (c =? 0x0A) || (c =? 0x0B) || (c =? 0x0C) || (c =? 0x0D)
  || (c =? 0x20) || (c =? 0xA0) || (c =? 0x1680)
  || ((0x2000 <=? c) && (c <=? 0x200A))
  || (c =? 0x2028) || (c =? 0x2029) || (c =? 0x202F) || (c =? 0x205F)
  || (c =? 0x3000) || (c =? 0xFEFF).

Fixpoint dropWhile {A} (p : A -> bool) (l : list A) : list A :=
  match l with
  | [] => []
  | x :: l' => if p x then dropWhile p l' else l
  end.

Definition trimStart (s : jsstring) : jsstring := dropWhile isWhiteSpace s.
Definition trimEnd (s : jsstring) : jsstring := rev (dropWhile isWhiteSpace (rev s)).

(** [String.prototype.trim] *)
Definition trim (s : jsstring) : jsstring := trimEnd (trimStart s).

Fixpoint startsWith (s p : jsstring) {struct p} : bool :=
  match p, s with
  | [], _ => true
  | _ :: _, [] => false
  | a :: p', b :: s' => (a =? b) && startsWith s' p'
  end.

(** [String.prototype.includes]: [includes s p] is [s.includes(p)]. *)
Fixpoint includes (s p : jsstring) : bool :=
  startsWith s p ||
  match s with
  | [] => false
  | _ :: s' => includes s' p
  end.

Definition isAsciiUpper (c : N) : bool := (65 <=? c) && (c <=? 90).
Definition isAsciiLower (c : N) : bool := (97 <=? c) && (c <=? 122).
Definition isAsciiDigit (c : N) : bool := (48 <=? c) && (c <=? 57).
Definition isAscii (c : N) : bool := c <? 128.

Definition asciiToLower (c : N) : N := if isAsciiUpper c then c + 32 else c.
Definition asciiToUpper (c : N) : N := if isAsciiLower c then c - 32 else c.

(* ================================================================== *)
(** * Exceptions and completions *)
(* ================================================================== *)

(** Faults raised by the engine itself; the property name is the one of the
    source expression that faulted. *)
Inductive fault :=
| ReadOfNullish (prop : string)
| WriteOfNullish (prop : string)
| NotAFunction (prop : string)
| NotConvertibleToPrimitive.

Inductive exn :=
| Error (message : jsstring)         (* [throw new Error(...)] of the source *)
| URIError                           (* [encodeURIComponent], unpaired surrogate *)
| TypeError (f : fault)              (* raised by the engine *)
| SyntaxError                        (* [response.json()] on a body that is not JSON *)
| FetchRejection (message : jsstring). (* [fetch] rejecting: transport failure *)

Inductive completion (A : Type) :=
| Normal (a : A)
| Throw (e : exn).
Arguments Normal {A} a.
Arguments Throw {A} e.

Definition cmap {A B} (f : A -> B) (c : completion A) : completion B :=
  match c with
  | Normal a => Normal (f a)
  | Throw e => Throw e
  end.

Global Instance completion_fmap : FMap completion := @cmap.

(* ================================================================== *)
(** * encodeURIComponent (ECMA-262, Encode with the unreserved set) *)
(* ================================================================== *)

Definition isAsciiAlpha (c : N) : bool := isAsciiUpper c || isAsciiLower c.

(** uriUnescaped: letters, digits and the marks [- _ . ! ~ * ' ( )]. *)
Definition uriUnescaped (c : N) : bool :=
  isAsciiAlpha c || isAsciiDigit c
  || (c =? 45) || (c =? 95) || (c =? 46) || (c =? 33) || (c =? 126)
  || (c =? 42) || (c =? 39) || (c =? 40) || (c =? 41).

Definition isLeadingSurrogate (c : N) : bool := (0xD800 <=? c) && (c <=? 0xDBFF).
Definition isTrailingSurrogate (c : N) : bool := (0xDC00 <=? c) && (c <=? 0xDFFF).

Definition surrogatePairToCodePoint (lead trail : N) : N :=
  (lead - 0xD800) * 0x400 + (trail - 0xDC00) + 0x10000.

Definition utf8Encode (cp : N) : list N :=
  if cp <=? 0x7F then [cp]
  else if cp <=? 0x7FF then
    [0xC0 + cp / 64; 0x80 + cp mod 64]
  else if cp <=? 0xFFFF then
    [0xE0 + cp / 4096; 0x80 + (cp / 64) mod 64; 0x80 + cp mod 64]
  else
    [0xF0 + cp / 262144; 0x80 + (cp / 4096) mod 64;
     0x80 + (cp / 64) mod 64; 0x80 + cp mod 64].

Definition hexDigit (n : N) : N := if n <? 10 then 48 + n else 55 + n.

(** One octet as [%XX], upper-case hexadecimal. *)
Definition percentOctet (o : N) : jsstring :=
  [37; hexDigit (o / 16); hexDigit (o mod 16)].

Definition percentOctets (os : list N) : jsstring :=
  flat_map percentOctet os.

Fixpoint encodeURIComponent (s : jsstring) : completion jsstring :=
  match s with
  | [] => Normal []
  | c :: rest =>
    if uriUnescaped c then cmap (cons c) (encodeURIComponent rest)
    else if isTrailingSurrogate c then Throw URIError
    else if isLeadingSurrogate c then
      match rest with
      | c2 :: rest' =>
        if isTrailingSurrogate c2 then
          cmap (app (percentOctets (utf8Encode (surrogatePairToCodePoint c c2))))
               (encodeURIComponent rest')
        else Throw URIError
      | [] => Throw URIError
      end
    else cmap (app (percentOctets (utf8Encode c))) (encodeURIComponent rest)
  end.

(** The code units an encoded component is made of: unreserved characters
    and the characters of percent escapes. *)
Definition uriSafe (c : N) : bool :=
  uriUnescaped c || (c =? 37) || isAsciiDigit c || ((65 <=? c) && (c <=? 70)).

(** A string is well formed when every surrogate code unit is part of a
    leading/trailing pair (what [String.prototype.isWellFormed] tests). *)
Fixpoint isWellFormed (s : jsstring) : bool :=
  match s with
  | [] => true
  | c :: rest =>
    if isTrailingSurrogate c then false
    else if isLeadingSurrogate c then
      match rest with
      | c2 :: rest' => isTrailingSurrogate c2 && isWellFormed rest'
      | [] => false
      end
    else isWellFormed rest
  end.

(* ================================================================== *)
(** * Configuration and constants (scripts.js, lines 11-38) *)
(* ================================================================== *)

Module WEATHER_API_CONFIG.
Definition apiKey : jsstring := js "77cd39c3c35e4552b93173121250909".
Definition baseUrl : jsstring := js "https://api.weatherapi.com/v1/current.json".
Definition options : jsstring := js "aqi=no".
End WEATHER_API_CONFIG.

Module DOM_ELEMENTS.
Definition locationInput : string := "location-input".
Definition searchButton : string := "search-button".
Definition weatherResult : string := "weather-result".
Definition weatherIcon : string := ".weather-icon".
Definition floatingElements : string := ".floating-element".
Definition searchCard : string := ".search-card".
Definition appHeader : string := ".app-header".
Definition backgroundElements : string := ".background-elements".
End DOM_ELEMENTS.

Module CSS_CLASSES.
Definition show : string := "show".
Definition loading : string := "loading".
Definition weatherCondition : string := "weather-condition".
Definition weatherLocation : string := "weather-location".
Definition weatherTemperature : string := "weather-temperature".
Definition errorMessage : string := "error-message".
Definition warningMessage : string := "warning-message".
End CSS_CLASSES.

(* ================================================================== *)
(** * Request Builder (scripts.js, lines 356-359) *)
(* ================================================================== *)

(** The template literal of line 358 around the encoded location. *)
Definition apiUrlOf (encodedLocation : jsstring) : jsstring :=
  WEATHER_API_CONFIG.baseUrl ++ js "?key=" ++ WEATHER_API_CONFIG.apiKey
  ++ js "&q=" ++ encodedLocation ++ js "&" ++ WEATHER_API_CONFIG.options.

Definition buildWeatherApiUrl (location : jsstring) : completion jsstring :=
  cmap apiUrlOf (encodeURIComponent (trim location)).

(* ================================================================== *)
(** * Values, numbers and the coercions used by the source *)
(* ================================================================== *)

Global Instance completion_ret : MRet completion := fun _ a => Normal a.
Global Instance completion_bind : MBind completion := fun _ _ f c =>
  match c with
  | Normal a => f a
  | Throw e => Throw e
  end.

(** Number values.  A finite double is the rational it denotes, so a
    statement about every rational covers every finite double; [-0] and [+0]
    are both [Finite 0] (they print alike). *)
Inductive number :=
| NaN
| Infinity (negative : bool)
| Finite (q : Q).

(** The values a parsed JSON body is made of, and [undefined]. *)
Inductive jsvalue :=
| VUndefined
| VNull
| VBool (b : bool)
| VNumber (n : number)
| VString (s : jsstring)
| VArray (items : list jsvalue)
| VObject (props : list (jsstring * jsvalue)).

(** What the model takes from the host instead of writing it out: the
    Unicode case tables, the numeric-literal grammar, the digits of a
    number that is not a small integer, and the wording of the messages of
    the errors the engine raises. *)
Class Host := {
  (** [String.prototype.toLowerCase] of a string holding a code unit
      outside ASCII *)
  unicodeToLowerCase : jsstring -> jsstring;
  (** [StringToNumber] *)
  StringToNumber : jsstring -> number;
  (** [Number::toString] of a finite number that is not an integer of
      absolute value below 10^21 *)
  NumberToStringOther : Q -> jsstring;
  (** the [message] of an error created by the engine *)
  engineMessage : exn -> jsstring
}.

Definition exnMessage `{Host} (e : exn) : jsstring :=
  match e with
  | Error message => message
  | FetchRejection message => message
  | _ => engineMessage e
  end.

(** [String.prototype.toLowerCase]: on a string of ASCII code units it maps
    [A-Z] to [a-z] and nothing else. *)
Definition toLowerCase `{Host} (s : jsstring) : jsstring :=
  if forallb isAscii s then map asciiToLower s else unicodeToLowerCase s.

Fixpoint lookupProp (key : jsstring) (props : list (jsstring * jsvalue)) : jsvalue :=
  match props with
  | [] => VUndefined
  | (k, v) :: props' => if bool_decide (k = key) then v else lookupProp key props'
  end.

Definition hasOwnProperty (key : jsstring) (props : list (jsstring * jsvalue)) : bool :=
  existsb (fun kv => bool_decide (fst kv = key)) props.

(** The member expression [v.key], for the property names the source reads
    ([current], [temp_c], [condition], [text], [location], [name],
    [country]): none of them is defined on a built-in prototype, so the
    result is the own property of an object and [undefined] on any other
    value that is not [null] or [undefined]. *)
Definition getProp (v : jsvalue) (key : string) : completion jsvalue :=
  match v with
  | VUndefined | VNull => Throw (TypeError (ReadOfNullish key))
  | VObject props => Normal (lookupProp (js key) props)
  | _ => Normal VUndefined
  end.

Definition ToBoolean (v : jsvalue) : bool :=
  match v with
  | VUndefined | VNull => false
  | VBool b => b
  | VNumber NaN => false
  | VNumber (Infinity _) => true
  | VNumber (Finite q) => negb (Qeq_bool q 0)
  | VString s => negb (bool_decide (s = []))
  | VArray _ | VObject _ => true
  end.

(** The strict comparison [v === b] with a boolean. *)
Definition strictlyEquals (v : jsvalue) (b : bool) : bool :=
  match v with
  | VBool b' => Bool.eqb b' b
  | _ => false
  end.

(** [a && b] on values already computed ([b] has no effect in the source). *)
Definition js_and (a b : jsvalue) : jsvalue := if ToBoolean a then b else a.

Definition decimal (z : Z) : jsstring := js (NilZero.string_of_int (Z.to_int z)).

Definition isInteger (q : Q) : bool := (Qnum q mod Zpos (Qden q) =? 0)%Z.
Definition integerPart (q : Q) : Z := (Qnum q / Zpos (Qden q))%Z.

Definition NumberToString `{Host} (n : number) : jsstring :=
  match n with
  | NaN => js "NaN"
  | Infinity false => js "Infinity"
  | Infinity true => js "-Infinity"
  | Finite q =>
    if isInteger q && (Z.abs (integerPart q) <? 10 ^ 21)%Z
    then decimal (integerPart q)
    else NumberToStringOther q
  end.

(** [Math.round]: the integer nearest to the argument, ties towards
    positive infinity. *)
Definition Math_round (n : number) : number :=
  match n with
  | Finite q => Finite (inject_Z (Qfloor (q + (1 # 2))))
  | _ => n
  end.

(** [ToString] of a value, as a template literal applies it.  A parsed
    object has no callable [toString] or [valueOf] of its own; one that
    shadows [toString] cannot be converted. *)
Fixpoint ToString `{Host} (v : jsvalue) : completion jsstring :=
  match v with
  | VUndefined => Normal (js "undefined")
  | VNull => Normal (js "null")
  | VBool true => Normal (js "true")
  | VBool false => Normal (js "false")
  | VNumber n => Normal (NumberToString n)
  | VString s => Normal s
  | VArray items =>
    (fix join (l : list jsvalue) : completion jsstring :=
       match l with
       | [] => Normal []
       | x :: l' =>
         match (match x with
                | VUndefined | VNull => Normal []
                | _ => ToString x
                end) with
         | Throw e => Throw e
         | Normal sx =>
           match l' with
           | [] => Normal sx
           | _ :: _ =>
             match join l' with
             | Throw e => Throw e
             | Normal sl => Normal (sx ++ js "," ++ sl)
             end
           end
         end
       end) items
  | VObject props =>
    if hasOwnProperty (js "toString") props
    then Throw (TypeError NotConvertibleToPrimitive)
    else Normal (js "[object Object]")
  end.

Definition ToNumber `{Host} (v : jsvalue) : completion number :=
  match v with
  | VUndefined => Normal NaN
  | VNull => Normal (Finite 0)
  | VBool true => Normal (Finite 1)
  | VBool false => Normal (Finite 0)
  | VNumber n => Normal n
  | VString s => Normal (StringToNumber s)
  | VArray _ | VObject _ => s ← ToString v; Normal (StringToNumber s)
  end.

(* ================================================================== *)
(** * Input Validator (scripts.js, lines 384-386) *)
(* ================================================================== *)

(** [return location && location.trim().length > 0;] *)
Definition validateLocationInput (location : jsstring) : jsvalue :=
  js_and (VString location) (VBool (0 <? length (trim location))%nat).

(* ================================================================== *)
(** * Display Formatter (scripts.js, lines 301-345) *)
(* ================================================================== *)

(** The string literals returned by [getWeatherEmoji], code unit by code
    unit as the source file holds them (lines 329-344). *)
Definition ICON_SUNNY : jsstring := [0x201A; 0xF2; 0xC4; 0xD4; 0x220F; 0xE8].
Definition ICON_CLOUD : jsstring := [0x201A; 0xF2; 0xC5; 0xD4; 0x220F; 0xE8].
Definition ICON_RAIN : jsstring := [0xF8FF; 0xFC; 0xE5; 0xDF; 0xD4; 0x220F; 0xE8].
Definition ICON_SNOW : jsstring := [0x201A; 0xF9; 0xD1; 0xD4; 0x220F; 0xE8].
Definition ICON_THUNDER : jsstring := [0x201A; 0xF5; 0xE0; 0xD4; 0x220F; 0xE8].
Definition ICON_FOG : jsstring := [0xF8FF; 0xFC; 0xE5; 0xB4; 0xD4; 0x220F; 0xE8].
Definition ICON_WIND : jsstring := [0xF8FF; 0xFC; 0xED; 0xAE].
Definition ICON_DEFAULT : jsstring := [0xF8FF; 0xFC; 0xE5; 0xA7; 0xD4; 0x220F; 0xE8].

(** The method call [condition.toLowerCase()]. *)
Definition call_toLowerCase `{Host} (v : jsvalue) : completion jsstring :=
  match v with
  | VString s => Normal (toLowerCase s)
  | VUndefined | VNull => Throw (TypeError (ReadOfNullish "toLowerCase"))
  | _ => Throw (TypeError (NotAFunction "toLowerCase"))
  end.

Definition getWeatherEmoji `{Host} (condition : jsvalue) : completion jsstring :=
  conditionLower ← call_toLowerCase condition;
  mret (
    if includes conditionLower (js "sunny") || includes conditionLower (js "clear") then
      ICON_SUNNY
    else if includes conditionLower (js "cloud") then
      ICON_CLOUD
    else if includes conditionLower (js "rain") || includes conditionLower (js "drizzle") then
      ICON_RAIN
    else if includes conditionLower (js "snow") then
      ICON_SNOW
    else if includes conditionLower (js "thunder") || includes conditionLower (js "storm") then
      ICON_THUNDER
    else if includes conditionLower (js "fog") || includes conditionLower (js "mist") then
      ICON_FOG
    else if includes conditionLower (js "wind") then
      ICON_WIND
    else ICON_DEFAULT).

(** The first category, in order, one of whose keywords occurs in the text;
    the fallback when none does. *)
Fixpoint firstMatch (categories : list (list jsstring * jsstring))
    (fallback text : jsstring) : jsstring :=
  match categories with
  | [] => fallback
  | (keywords, icon) :: rest =>
    if existsb (includes text) keywords then icon
    else firstMatch rest fallback text
  end.

(** The keywords [getWeatherEmoji] tests, category by category, in the
    order of its [if] chain. *)
Definition keywordCategories : list (list jsstring * jsstring) :=
  [ ([js "sunny"; js "clear"], ICON_SUNNY);
    ([js "cloud"], ICON_CLOUD);
    ([js "rain"; js "drizzle"], ICON_RAIN);
    ([js "snow"], ICON_SNOW);
    ([js "thunder"; js "storm"], ICON_THUNDER);
    ([js "fog"; js "mist"], ICON_FOG);
    ([js "wind"], ICON_WIND) ].

(** The keyword categories as the specification words them: clear/sunny,
    cloudy, rain/drizzle, snow, thunder/storm, fog/mist, windy. *)
Definition specKeywordCategories : list (list jsstring * jsstring) :=
  [ ([js "clear"; js "sunny"], ICON_SUNNY);
    ([js "cloudy"], ICON_CLOUD);
    ([js "rain"; js "drizzle"], ICON_RAIN);
    ([js "snow"], ICON_SNOW);
    ([js "thunder"; js "storm"], ICON_THUNDER);
    ([js "fog"; js "mist"], ICON_FOG);
    ([js "windy"], ICON_WIND) ].

(** The selection the specification describes: case-insensitive substring
    matching against [specKeywordCategories], first match wins. *)
Definition specWeatherEmoji `{Host} (condition : jsstring) : jsstring :=
  firstMatch specKeywordCategories ICON_DEFAULT (toLowerCase condition).

(** The literals of the template of lines 307-317 that are not ASCII, as
    the source file holds them. *)
Definition LOCATION_MARK : jsstring := [0xF8FF; 0xFC; 0xE5; 0xE7].
Definition TEMPERATURE_UNIT : jsstring := [0xAC; 0x221E; 67].

Definition divOpen (cls : string) : jsstring :=
  NEWLINE ++ spaces 8 ++ js "<div class=" ++ QUOTE ++ js cls ++ QUOTE ++ js ">"
  ++ NEWLINE ++ spaces 12.
Definition divClose : jsstring := NEWLINE ++ spaces 8 ++ js "</div>".

(** The template literal of lines 307-317 around its four substitutions. *)
Definition weatherTemplate (locationName temperature weatherIcon condition : jsstring)
  : jsstring :=
  divOpen CSS_CLASSES.weatherLocation
    ++ LOCATION_MARK ++ js " <strong>" ++ locationName ++ js "</strong>" ++ divClose
  ++ divOpen CSS_CLASSES.weatherTemperature
    ++ temperature ++ TEMPERATURE_UNIT ++ divClose
  ++ divOpen CSS_CLASSES.weatherCondition
    ++ weatherIcon ++ js " " ++ condition ++ divClose
  ++ NEWLINE ++ spaces 4.

Definition formatWeatherDisplay `{Host} (weatherData : jsvalue) : completion jsstring :=
  current ← getProp weatherData "current";
  temp_c ← getProp current "temp_c";
  temperature ← Math_round <$> ToNumber temp_c;
  current' ← getProp weatherData "current";
  conditionObj ← getProp current' "condition";
  condition ← getProp conditionObj "text";
  location ← getProp weatherData "location";
  name ← getProp location "name";
  nameText ← ToString name;
  location' ← getProp weatherData "location";
  country ← getProp location' "country";
  countryText ← ToString country;
  let locationName := nameText ++ js ", " ++ countryText in
  weatherIcon ← getWeatherEmoji condition;
  conditionText ← ToString condition;
  mret (weatherTemplate locationName (NumberToString temperature) weatherIcon conditionText).

(** A Weather Response of the expected shape: a numeric temperature, a
    condition text, a place name and a country name. *)
Record WeatherResponse := {
  temp_c : Q;
  condition_text : jsstring;
  location_name : jsstring;
  location_country : jsstring
}.

(** The parsed body such a response arrives as. *)
Definition responseBody (w : WeatherResponse) : jsvalue :=
  VObject
    [ (js "location",
       VObject [ (js "name", VString (location_name w));
                 (js "country", VString (location_country w)) ]);
      (js "current",
       VObject [ (js "temp_c", VNumber (Finite (temp_c w)));
                 (js "condition", VObject [ (js "text", VString (condition_text w)) ]) ]) ].

(* ================================================================== *)
(** * The page, the cached references and the trace *)
(* ================================================================== *)

(** The functions given to [addEventListener].  The first two are the
    named functions of lines 501 and 512; the others are the arrow
    functions of [setupInputAnimations] and [setupHoverAnimations], which
    are fresh objects at every evaluation. *)
Inductive listener :=
| handleSearchButtonClick_fn
| handleLocationInputKeyPress_fn
| inputFocus_fn
| inputBlur_fn
| buttonMouseEnter_fn
| buttonMouseLeave_fn
| inputMouseEnter_fn
| inputMouseLeave_fn.

Global Instance listener_eq_dec : EqDecision listener.
Proof. solve_decision. Defined.

Definition isNamedFunction (l : listener) : bool :=
  match l with
  | handleSearchButtonClick_fn | handleLocationInputKeyPress_fn => true
  | _ => false
  end.

Inductive content :=
| textContent (text : jsstring)
| innerHTML (markup : jsstring).

(** The part of an element the script reads or writes. *)
Record Element := {
  classList : list string;
  disabled : bool;
  value : jsstring;
  content_of : content;
  listeners : list (string * listener)
}.

Definition set_classList (f : list string -> list string) (e : Element) : Element :=
  {| classList := f (classList e); disabled := disabled e; value := value e;
     content_of := content_of e; listeners := listeners e |}.
Definition set_disabled (b : bool) (e : Element) : Element :=
  {| classList := classList e; disabled := b; value := value e;
     content_of := content_of e; listeners := listeners e |}.
Definition set_content (c : content) (e : Element) : Element :=
  {| classList := classList e; disabled := disabled e; value := value e;
     content_of := c; listeners := listeners e |}.
Definition set_listeners (f : list (string * listener) -> list (string * listener))
    (e : Element) : Element :=
  {| classList := classList e; disabled := disabled e; value := value e;
     content_of := content_of e; listeners := f (listeners e) |}.

(** [classList.add] and [classList.remove] of one token. *)
Definition classList_add (tok : string) (l : list string) : list string :=
  if bool_decide (tok ∈ l) then l else l ++ [tok].
Definition classList_remove (tok : string) (l : list string) : list string :=
  filter (fun t => t ≠ tok) l.

(** [addEventListener]: a listener already registered for the type (the
    same function object) is not added again. *)
Definition addListener (type : string) (fn : listener)
    (l : list (string * listener)) : list (string * listener) :=
  if isNamedFunction fn && bool_decide ((type, fn) ∈ l) then l else l ++ [(type, fn)].

(** What a GSAP call is aimed at: a selector, a list of selectors, or an
    element reference (possibly [null]). *)
Inductive target :=
| selector (s : string)
| selectors (l : list string)
| element (ref : option string).

Inductive gsap_method :=
| gsap_set | gsap_to | gsap_fromTo | gsap_killTweensOf | gsap_timeline | timeline_to.

Inductive timer_callback :=
| animateWeatherElements_later
| focusLocationInput_later.

(** The calls that leave the script.  The animation parameters of the GSAP
    calls (durations, easings, offsets) are not recorded. *)
Inductive event :=
| console_error (message : jsstring) (detail : option exn)
| console_log (message : jsstring)
| gsap (method : gsap_method) (tgt : option target)
| fetch_call (url : jsstring)
| setTimeout (callback : timer_callback) (delay : N)
| preventDefault
| unhandledRejection (e : exn).

Record State := {
  document : gmap string Element;
  locationInputElement : option string;
  searchButtonElement : option string;
  weatherResultElement : option string;
  trace : list event
}.

Definition set_document (f : gmap string Element -> gmap string Element)
    (st : State) : State :=
  {| document := f (document st);
     locationInputElement := locationInputElement st;
     searchButtonElement := searchButtonElement st;
     weatherResultElement := weatherResultElement st;
     trace := trace st |}.
Definition set_trace (f : list event -> list event) (st : State) : State :=
  {| document := document st;
     locationInputElement := locationInputElement st;
     searchButtonElement := searchButtonElement st;
     weatherResultElement := weatherResultElement st;
     trace := f (trace st) |}.
Definition set_refs (input button result : option string) (st : State) : State :=
  {| document := document st;
     locationInputElement := input;
     searchButtonElement := button;
     weatherResultElement := result;
     trace := trace st |}.

(** The element a reference designates; [null] and a reference to an
    element the store does not hold both give [None]. *)
Definition deref (ref : option string) (st : State) : option Element :=
  match ref with
  | Some id => document st !! id
  | None => None
  end.

(* ================================================================== *)
(** * The monad of the functions with effects *)
(* ================================================================== *)

Definition M (A : Type) : Type := State -> completion A * State.

Global Instance M_ret : MRet M := fun _ a st => (Normal a, st).
Global Instance M_bind : MBind M := fun _ _ f m st =>
  match m st with
  | (Normal a, st') => f a st'
  | (Throw e, st') => (Throw e, st')
  end.

Definition throw {A} (e : exn) : M A := fun st => (Throw e, st).
Definition lift {A} (c : completion A) : M A := fun st => (c, st).
Definition gets {A} (f : State -> A) : M A := fun st => (Normal (f st), st).
Definition emit (e : event) : M unit :=
  fun st => (Normal tt, set_trace (fun t => t ++ [e]) st).

(** [try { body } catch (error) { handler } finally { final }] *)
Definition try_catch_finally (body : M unit) (handler : exn -> M unit)
    (final : M unit) : M unit :=
  fun st =>
    let '(r, st1) :=
      match body st with
      | (Normal tt, st') => (Normal tt, st')
      | (Throw e, st') => handler e st'
      end in
    match final st1 with
    | (Normal tt, st2) => (r, st2)
    | (Throw e, st2) => (Throw e, st2)
    end.

(** Reading a property of the element behind a reference. *)
Definition readElement {A} (prop : string) (ref : option string)
    (f : Element -> A) : M A :=
  fun st =>
    match deref ref st with
    | Some e => (Normal (f e), st)
    | None => (Throw (TypeError (ReadOfNullish prop)), st)
    end.

(** Updating the element behind a reference in place; [prop] is the
    property whose access faults when the reference is [null]. *)
Definition updateElement (fault_of : string -> fault) (prop : string)
    (ref : option string) (f : Element -> Element) : M unit :=
  fun st =>
    match ref, deref ref st with
    | Some id, Some e => (Normal tt, set_document (insert id (f e)) st)
    | _, _ => (Throw (TypeError (fault_of prop)), st)
    end.

(** [!ref] on an element reference. *)
Definition isNull (ref : option string) : bool :=
  match ref with
  | Some _ => false
  | None => true
  end.

(** [document.getElementById] *)
Definition getElementById (id : string) : M (option string) :=
  gets (fun st => match document st !! id with
                  | Some _ => Some id
                  | None => None
                  end).

(* ================================================================== *)
(** * The network *)
(* ================================================================== *)

(** A response as the script uses it: its status (an unsigned short) and
    what [json()] resolves or rejects with. *)
Record Response := {
  status : N;
  json : completion jsvalue
}.

(** [Response.ok]: the status is in the range 200-299 (Fetch standard). *)
Definition ok (r : Response) : bool := (200 <=? status r) && (status r <=? 299).

Inductive FetchOutcome :=
| Resolved (r : Response)
| Rejected (message : jsstring).

(** What [fetch] settles with for each URL. *)
Definition Network := jsstring -> FetchOutcome.

(* ================================================================== *)
(** * Fetch Client (scripts.js, lines 367-377) *)
(* ================================================================== *)

Definition fetch (net : Network) (url : jsstring) : M Response :=
  emit (fetch_call url);;
  match net url with
  | Resolved r => mret r
  | Rejected message => throw (FetchRejection message)
  end.

Definition notAvailable (status : N) : jsstring :=
  js "Weather data not available (" ++ decimal (Z.of_N status) ++ js ")".

Definition fetchWeatherData (net : Network) (location : jsstring) : M jsvalue :=
  apiUrl ← lift (buildWeatherApiUrl location);
  response ← fetch net apiUrl;
  if negb (ok response) then
    throw (Error (notAvailable (status response)))
  else
    lift (json response).

(* ================================================================== *)
(** * Animations and display helpers (scripts.js, lines 69-294) *)
(* ================================================================== *)

Definition animateFloatingElements : M unit :=
  emit (gsap gsap_to (Some (selector ".floating-element-1")));;
  emit (gsap gsap_to (Some (selector ".floating-element-2")));;
  emit (gsap gsap_to (Some (selector ".floating-element-3"))).

Definition initializePageAnimations : M unit :=
  emit (gsap gsap_set (Some (selector DOM_ELEMENTS.appHeader)));;
  emit (gsap gsap_set (Some (selector DOM_ELEMENTS.searchCard)));;
  emit (gsap gsap_set (Some (selector DOM_ELEMENTS.floatingElements)));;
  emit (gsap gsap_timeline None);;
  emit (gsap timeline_to (Some (selector DOM_ELEMENTS.appHeader)));;
  emit (gsap timeline_to (Some (selector DOM_ELEMENTS.searchCard)));;
  emit (gsap timeline_to (Some (selector DOM_ELEMENTS.floatingElements)));;
  animateFloatingElements.

Definition animateWeatherIcon : M unit :=
  emit (gsap gsap_to (Some (selector DOM_ELEMENTS.weatherIcon))).

Definition animateButtonLoading (isLoading : bool) : M unit :=
  button ← gets searchButtonElement;
  if isLoading then
    updateElement ReadOfNullish "classList" button
      (set_classList (classList_add CSS_CLASSES.loading));;
    emit (gsap gsap_to (Some (selector ".loader-dot")));;
    emit (gsap gsap_to (Some (element button)))
  else
    updateElement ReadOfNullish "classList" button
      (set_classList (classList_remove CSS_CLASSES.loading));;
    emit (gsap gsap_killTweensOf (Some (selector ".loader-dot")));;
    emit (gsap gsap_to (Some (element button))).

Definition animateWeatherResult : M unit :=
  resultCard ← getElementById "weather-result";
  emit (gsap gsap_set (Some (element resultCard)));;
  emit (gsap gsap_to (Some (element resultCard)));;
  updateElement ReadOfNullish "classList" resultCard
    (set_classList (classList_add CSS_CLASSES.show)).

Definition displayMessage (message : jsstring) (messageType : string) : M unit :=
  result ← gets weatherResultElement;
  if isNull result then mret tt
  else
    updateElement WriteOfNullish "className" result
      (set_classList (fun _ => ["weather-result-card"%string]));;
    (if bool_decide (messageType = "error"%string) then
       updateElement ReadOfNullish "classList" result
         (set_classList (classList_add CSS_CLASSES.errorMessage))
     else if bool_decide (messageType = "warning"%string) then
       updateElement ReadOfNullish "classList" result
         (set_classList (classList_add CSS_CLASSES.warningMessage))
     else mret tt);;
    updateElement WriteOfNullish "textContent" result
      (set_content (textContent message));;
    animateWeatherResult.

Definition showWeatherResult : M unit :=
  result ← gets weatherResultElement;
  if isNull result then mret tt
  else animateWeatherResult.

(* ================================================================== *)
(** * Presentation Controller (scripts.js, lines 396-454) *)
(* ================================================================== *)

(** The non-ASCII literals of lines 402 and 438, as the source file holds
    them. *)
Definition WARNING_MARK : jsstring := [0x201A; 0xF6; 0x2020; 0xD4; 0x220F; 0xE8].
Definition ERROR_MARK : jsstring := [0x201A; 0xF9; 0xE5].

Definition PLEASE_ENTER : jsstring := WARNING_MARK ++ js " Please enter a location.".

(** The [try] block of lines 406-434. *)
Definition lookupBody `{Host} (net : Network) (locationInput : jsstring) : M unit :=
  button ← gets searchButtonElement;
  updateElement WriteOfNullish "disabled" button (set_disabled true);;
  animateButtonLoading true;;
  emit (gsap gsap_to (Some (selector DOM_ELEMENTS.searchCard)));;
  weatherData ← fetchWeatherData net locationInput;
  formattedWeatherHtml ← lift (formatWeatherDisplay weatherData);
  result ← gets weatherResultElement;
  updateElement WriteOfNullish "innerHTML" result
    (set_content (innerHTML formattedWeatherHtml));;
  showWeatherResult;;
  emit (setTimeout animateWeatherElements_later 300).

(** The [catch] block of lines 435-448. *)
Definition lookupCatch `{Host} (error : exn) : M unit :=
  emit (console_error (js "Weather fetch error:") (Some error));;
  displayMessage (ERROR_MARK ++ js " Error: " ++ exnMessage error) "error";;
  emit (gsap gsap_to (Some (selector DOM_ELEMENTS.searchCard))).

(** The [finally] block of lines 449-453. *)
Definition lookupFinally : M unit :=
  button ← gets searchButtonElement;
  updateElement WriteOfNullish "disabled" button (set_disabled false);;
  animateButtonLoading false.

(** [getWeatherInformation].  The function is asynchronous; the model runs
    what follows the [await] at once, with the outcome the network gives:
    no other handler runs in between. *)
Definition getWeatherInformation `{Host} (net : Network) : M unit :=
  input ← gets locationInputElement;
  raw ← readElement "value" input value;
  let locationInput := trim raw in
  if negb (ToBoolean (validateLocationInput locationInput)) then
    displayMessage PLEASE_ENTER "warning"
  else
    try_catch_finally (lookupBody net locationInput) lookupCatch lookupFinally.

(** [animateWeatherElements] (lines 459-491), the callback of the timer set
    at the end of the [try] block. *)
Definition animateWeatherElements : M unit :=
  emit (gsap gsap_fromTo
          (Some (selectors [ "." +:+ CSS_CLASSES.weatherLocation;
                             "." +:+ CSS_CLASSES.weatherTemperature;
                             "." +:+ CSS_CLASSES.weatherCondition ])));;
  emit (gsap gsap_to (Some (selector ("." +:+ CSS_CLASSES.weatherTemperature)))).

(* ================================================================== *)
(** * Event handlers (scripts.js, lines 501-515) *)
(* ================================================================== *)

Record KeyboardEvent := { key : jsstring }.

(** A call of an asynchronous function whose promise is dropped: an
    exception does not reach the caller. *)
Definition detached (m : M unit) : M unit :=
  fun st =>
    match m st with
    | (Normal _, st') => (Normal tt, st')
    | (Throw e, st') => (Normal tt, set_trace (fun t => t ++ [unhandledRejection e]) st')
    end.

Definition handleLocationInputKeyPress `{Host} (net : Network) (ev : KeyboardEvent)
  : M unit :=
  if bool_decide (key ev = js "Enter") then
    emit preventDefault;;
    detached (getWeatherInformation net)
  else mret tt.

Definition handleSearchButtonClick `{Host} (net : Network) : M unit :=
  emit preventDefault;;
  detached (getWeatherInformation net).

(* ================================================================== *)
(** * Initialization (scripts.js, lines 221-259 and 525-607) *)
(* ================================================================== *)

Definition getElementByIdSafely (elementId : string) : M (option string) :=
  element ← getElementById elementId;
  (if isNull element then
     emit (console_error (js "Element with ID '" ++ js elementId ++ js "' not found") None)
   else mret tt);;
  mret element.

Definition addEventListener (ref : option string) (type : string) (fn : listener)
  : M unit :=
  updateElement ReadOfNullish "addEventListener" ref (set_listeners (addListener type fn)).

Definition setupInputAnimations : M unit :=
  inputElement ← gets locationInputElement;
  addEventListener inputElement "focus" inputFocus_fn;;
  addEventListener inputElement "blur" inputBlur_fn.

Definition setupHoverAnimations : M unit :=
  button ← gets searchButtonElement;
  input ← gets locationInputElement;
  addEventListener button "mouseenter" buttonMouseEnter_fn;;
  addEventListener button "mouseleave" buttonMouseLeave_fn;;
  addEventListener input "mouseenter" inputMouseEnter_fn;;
  addEventListener input "mouseleave" inputMouseLeave_fn.

(** Assignments to the three cached references (lines 527-529). *)
Definition assign_locationInputElement (ref : option string) : M unit :=
  fun st => (Normal tt, set_refs ref (searchButtonElement st) (weatherResultElement st) st).
Definition assign_searchButtonElement (ref : option string) : M unit :=
  fun st => (Normal tt, set_refs (locationInputElement st) ref (weatherResultElement st) st).
Definition assign_weatherResultElement (ref : option string) : M unit :=
  fun st => (Normal tt, set_refs (locationInputElement st) (searchButtonElement st) ref st).

Definition REQUIRED_NOT_FOUND : jsstring :=
  js "Required DOM elements not found. App initialization failed.".
Definition INITIALIZED : jsstring :=
  js "Modern weather app initialized successfully with GSAP animations".

Definition initializeWeatherApp : M unit :=
  getElementByIdSafely DOM_ELEMENTS.locationInput ≫= assign_locationInputElement;;
  getElementByIdSafely DOM_ELEMENTS.searchButton ≫= assign_searchButtonElement;;
  getElementByIdSafely DOM_ELEMENTS.weatherResult ≫= assign_weatherResultElement;;
  input ← gets locationInputElement;
  button ← gets searchButtonElement;
  result ← gets weatherResultElement;
  if isNull input || isNull button || isNull result then
    emit (console_error REQUIRED_NOT_FOUND None)
  else
    initializePageAnimations;;
    animateWeatherIcon;;
    setupInputAnimations;;
    addEventListener button "click" handleSearchButtonClick_fn;;
    addEventListener input "keypress" handleLocationInputKeyPress_fn;;
    setupHoverAnimations;;
    emit (setTimeout focusLocationInput_later 1000);;
    emit (console_log INITIALIZED).

(* ================================================================== *)
(** * Observations on states and traces *)
(* ================================================================== *)

Definition isFetch (e : event) : bool :=
  match e with fetch_call _ => true | _ => false end.
Definition isGsap (e : event) : bool :=
  match e with gsap _ _ => true | _ => false end.

(** The requests issued so far: the [fetch] calls of the trace. *)
Definition requests (st : State) : list event := List.filter isFetch (trace st).

Definition buttonDisabled (st : State) : option bool :=
  disabled <$> deref (searchButtonElement st) st.
Definition buttonLoading (st : State) : option bool :=
  (fun e => bool_decide (CSS_CLASSES.loading ∈ classList e))
    <$> deref (searchButtonElement st) st.

(** All the listeners registered on the page. *)
Definition allListeners (st : State) : list (string * (string * listener)) :=
  flat_map (fun '(id, e) => map (pair id) (listeners e)) (map_to_list (document st)).

Definition emptyElement : Element :=
  {| classList := []; disabled := false; value := [];
     content_of := textContent []; listeners := [] |}.

(** A page that holds the three elements, before the script has run. *)
Definition pageWithInput (text : jsstring) : State :=
  {| document :=
       <[DOM_ELEMENTS.locationInput :=
           {| classList := []; disabled := false; value := text;
              content_of := textContent []; listeners := [] |}]>
       (<[DOM_ELEMENTS.searchButton := emptyElement]>
       (<[DOM_ELEMENTS.weatherResult := emptyElement]> ∅));
     locationInputElement := None;
     searchButtonElement := None;
     weatherResultElement := None;
     trace := [] |}.

(** A page on which the result container is missing. *)
Definition pageWithoutResult : State :=
  {| document :=
       <[DOM_ELEMENTS.locationInput := emptyElement]>
       (<[DOM_ELEMENTS.searchButton := emptyElement]> ∅);
     locationInputElement := None;
     searchButtonElement := None;
     weatherResultElement := None;
     trace := [] |}.

(** The state [initializeWeatherApp] leaves on a page that holds the three
    elements: each cached reference designates its element. *)
Definition initialized (st : State) : Prop :=
  locationInputElement st = Some DOM_ELEMENTS.locationInput
  /\ searchButtonElement st = Some DOM_ELEMENTS.searchButton
  /\ weatherResultElement st = Some DOM_ELEMENTS.weatherResult
  /\ is_Some (document st !! DOM_ELEMENTS.locationInput)
  /\ is_Some (document st !! DOM_ELEMENTS.searchButton)
  /\ is_Some (document st !! DOM_ELEMENTS.weatherResult).

(** The page of [pageWithInput] once the references are cached. *)
Definition readyPage (text : jsstring) : State :=
  set_refs (Some DOM_ELEMENTS.locationInput) (Some DOM_ELEMENTS.searchButton)
           (Some DOM_ELEMENTS.weatherResult) (pageWithInput text).

(** The three required elements are on the page. *)
Definition hasRequiredElements (st : State) : Prop :=
  is_Some (document st !! DOM_ELEMENTS.locationInput)
  /\ is_Some (document st !! DOM_ELEMENTS.searchButton)
  /\ is_Some (document st !! DOM_ELEMENTS.weatherResult).

Definition isConsoleError (e : event) : bool :=
  match e with console_error _ _ => true | _ => false end.

(** A computation keeps an invariant of the state, however it ends. *)
Definition preserves (I : State -> Prop) {A} (m : M A) : Prop :=
  forall st, I st -> I (snd (m st)).

(** The trigger control is there: the cached reference designates an
    element of the page. *)
Definition buttonIs (b : string) (st : State) : Prop :=
  searchButtonElement st = Some b /\ is_Some (document st !! b).

(** The two calls that end [animateButtonLoading(false)]. *)
Definition loadingStopped (b : string) : list event :=
  [ gsap gsap_killTweensOf (Some (selector ".loader-dot"));
    gsap gsap_to (Some (element (Some b))) ].

(** A network that answers every request with the same response. *)
Definition respondWith (r : Response) : Network := fun _ => Resolved r.

(** The successful mocked response and two failing ones: a status 400, and
    a status 200 whose body is an object without the expected fields. *)
Definition parisReply (body : jsvalue) : Response :=
  {| status := 200; json := Normal body |}.
Definition badRequest : Response := {| status := 400; json := Normal VNull |}.

(** A host used to run the model on examples: case tables that leave
    non-ASCII strings alone and one message for every engine error. *)
Definition sampleHost : Host := {|
  unicodeToLowerCase := fun s => s;
  StringToNumber := fun _ => NaN;
  NumberToStringOther := fun _ => js "?";
  engineMessage := fun _ => js "engine error" |}.

(** The mocked response of the end-to-end scenario. *)
Definition parisResponse : WeatherResponse :=
  {| temp_c := (184 # 10)%Q; condition_text := js "Sunny";
     location_name := js "Paris"; location_country := js "France" |}.

(* ================================================================== *)
(** * Further observations *)
(* ================================================================== *)

(** How often a code unit occurs in a string. *)
Definition occurrences (c : N) (s : jsstring) : nat :=
  length (List.filter (N.eqb c) s).

(** A parsed body of the expected shape whose [current] object has no
    [temp_c] property. *)
Definition bodyWithoutTemperature (name country condition : jsstring) : jsvalue :=
  VObject
    [ (js "location",
       VObject [ (js "name", VString name); (js "country", VString country) ]);
      (js "current",
       VObject [ (js "condition", VObject [ (js "text", VString condition) ]) ]) ].

(** An update of an element that leaves its value and its listeners as
    they are. *)
Definition keepsFields (f : Element -> Element) : Prop :=
  forall e, value (f e) = value e /\ listeners (f e) = listeners e.


(** The requests of a state are those of [k], or those and one more. *)
Definition atMostOneMore (k : list event) (st : State) : Prop :=
  requests st = k \/ exists url, requests st = k ++ [fetch_call url].


(* ================================================================== *)
(** * Lemmas on strings *)
(* ================================================================== *)

Section DropWhile.
Context {A : Type} (p : A -> bool).

Lemma dropWhile_idem (l : list A) : dropWhile p (dropWhile p l) = dropWhile p l.
Proof.
  induction l as [|x l IH]; simpl; [reflexivity|].
  destruct (p x) eqn:Hx; [exact IH|]. simpl. now rewrite Hx.
Qed.

Lemma dropWhile_all (l : list A) : forallb p l = true -> dropWhile p l = [].
Proof.
  induction l as [|x l IH]; simpl; [reflexivity|].
  destruct (p x); simpl; [exact IH | discriminate].
Qed.

Lemma dropWhile_nil_all (l : list A) : dropWhile p l = [] -> forallb p l = true.
Proof.
  induction l as [|x l IH]; simpl; [reflexivity|].
  destruct (p x); simpl; [exact IH | discriminate].
Qed.

Lemma dropWhile_snoc (l : list A) (c : A) :
  dropWhile p (l ++ [c]) =
  if forallb p l then (if p c then [] else [c]) else dropWhile p l ++ [c].
Proof.
  induction l as [|x l IH]; simpl; [reflexivity|].
  destruct (p x); simpl; [exact IH | reflexivity].
Qed.

Lemma forallb_rev (l : list A) : forallb p (rev l) = forallb p l.
Proof.
  induction l as [|x l IH]; simpl; [reflexivity|].
  rewrite forallb_app, IH. simpl. destruct (p x), (forallb p l); reflexivity.
Qed.

End DropWhile.

Lemma trimEnd_cons (c : N) (t : jsstring) :
  trimEnd (c :: t) = if forallb isWhiteSpace (c :: t) then [] else c :: trimEnd t.
Proof.
  unfold trimEnd. simpl rev. rewrite dropWhile_snoc, forallb_rev. simpl forallb.
  destruct (forallb isWhiteSpace t) eqn:Ht.
  - rewrite (dropWhile_all _ (rev t)) by (now rewrite forallb_rev).
    destruct (isWhiteSpace c); reflexivity.
  - rewrite andb_false_r. now rewrite rev_app_distr.
Qed.

Lemma trimEnd_idem (s : jsstring) : trimEnd (trimEnd s) = trimEnd s.
Proof. unfold trimEnd. now rewrite rev_involutive, dropWhile_idem. Qed.

Lemma trimStart_idem (s : jsstring) : trimStart (trimStart s) = trimStart s.
Proof. apply dropWhile_idem. Qed.

Lemma trimStart_trimEnd (s : jsstring) : trimStart (trimEnd s) = trimEnd (trimStart s).
Proof.
  induction s as [|c s IH]; [reflexivity|].
  rewrite trimEnd_cons.
  destruct (forallb isWhiteSpace (c :: s)) eqn:Hall.
  - unfold trimStart at 2. now rewrite (dropWhile_all _ _ Hall).
  - simpl in Hall. unfold trimStart at 1 2. simpl.
    destruct (isWhiteSpace c) eqn:Hc.
    + exact IH.
    + rewrite trimEnd_cons. simpl. now rewrite Hc.
Qed.

Lemma trim_idem (s : jsstring) : trim (trim s) = trim s.
Proof.
  unfold trim.
  now rewrite trimStart_trimEnd, trimStart_idem, trimEnd_idem.
Qed.

Lemma trim_whitespace_only (s : jsstring) :
  forallb isWhiteSpace s = true -> trim s = [].
Proof.
  intros Hs. unfold trim, trimStart. now rewrite (dropWhile_all _ _ Hs).
Qed.

Lemma trim_nil_whitespace_only (s : jsstring) :
  trim s = [] -> forallb isWhiteSpace s = true.
Proof.
  unfold trim. rewrite <- trimStart_trimEnd. unfold trimStart. intros Hs.
  apply dropWhile_nil_all in Hs.
  induction s as [|c s IH]; [reflexivity|].
  rewrite trimEnd_cons in Hs.
  destruct (forallb isWhiteSpace (c :: s)) eqn:Hall; [reflexivity|].
  simpl in Hs, Hall. apply andb_prop in Hs as [Hc Hs].
  apply IH in Hs. rewrite Hc, Hs in Hall. discriminate.
Qed.

Lemma startsWith_app (p b : jsstring) : startsWith (p ++ b) p = true.
Proof.
  induction p as [|a p IH]; simpl; [reflexivity|].
  now rewrite N.eqb_refl.
Qed.

Lemma startsWith_inv (s p : jsstring) :
  startsWith s p = true -> exists b, s = p ++ b.
Proof.
  revert s. induction p as [|a p IH]; intros s Hs.
  - now exists s.
  - destruct s as [|c s]; simpl in Hs; [discriminate|].
    apply andb_prop in Hs as [Hac Hs]. apply N.eqb_eq in Hac. subst c.
    destruct (IH _ Hs) as [b ->]. now exists b.
Qed.

Lemma includes_app_r (a l p : jsstring) :
  includes l p = true -> includes (a ++ l) p = true.
Proof.
  intros Hl. induction a as [|c a IH]; simpl; [exact Hl|].
  rewrite IH. apply orb_true_r.
Qed.

(** [includes] is the substring relation. *)
Lemma includes_infix (s p : jsstring) :
  includes s p = true <-> exists a b, s = a ++ p ++ b.
Proof.
  split.
  - induction s as [|c s IH]; simpl; intros Hs.
    + rewrite orb_false_r in Hs. apply startsWith_inv in Hs as [b Hb].
      now exists [], b.
    + apply orb_prop in Hs as [Hs|Hs].
      * apply startsWith_inv in Hs as [b Hb]. now exists [], b.
      * destruct (IH Hs) as (a & b & ->). now exists (c :: a), b.
  - intros (a & b & ->). apply includes_app_r.
    destruct (p ++ b) eqn:E; simpl; rewrite <- E, startsWith_app; reflexivity.
Qed.

Lemma includes_middle (a p b : jsstring) : includes (a ++ p ++ b) p = true.
Proof. apply includes_infix. now exists a, b. Qed.

(* ================================================================== *)
(** * Lemmas on encodeURIComponent *)
(* ================================================================== *)

Lemma hexDigit_safe (n : N) : n < 16 -> uriSafe (hexDigit n) = true.
Proof.
  intros Hn. destruct n as [|p]; [reflexivity|].
  do 4 (try destruct p as [p|p|]); try reflexivity; lia.
Qed.

Lemma percentOctet_safe (o : N) : o < 256 -> forallb uriSafe (percentOctet o) = true.
Proof.
  intros Ho. unfold percentOctet. cbn [forallb].
  rewrite !hexDigit_safe.
  - reflexivity.
  - apply N.mod_lt. lia.
  - apply N.Div0.div_lt_upper_bound. lia.
Qed.

Lemma percentOctets_safe (os : list N) :
  Forall (fun o => o < 256) os -> forallb uriSafe (percentOctets os) = true.
Proof.
  induction 1 as [|o os Ho _ IH]; [reflexivity|].
  unfold percentOctets in *. cbn [flat_map]. rewrite forallb_app, IH.
  now rewrite percentOctet_safe.
Qed.

Local Ltac euclid := zify; Z.to_euclidean_division_equations; lia.

Lemma utf8Encode_octets (cp : N) :
  cp < 0x110000 -> Forall (fun o => o < 256) (utf8Encode cp).
Proof.
  intros Hcp. unfold utf8Encode.
  repeat (match goal with |- context [?a <=? ?b] => destruct (N.leb_spec a b) end);
    repeat (apply List.Forall_cons || apply List.Forall_nil); euclid.
Qed.

Lemma surrogatePair_range (lead trail : N) :
  isLeadingSurrogate lead = true -> isTrailingSurrogate trail = true ->
  surrogatePairToCodePoint lead trail < 0x110000.
Proof.
  unfold isLeadingSurrogate, isTrailingSurrogate, surrogatePairToCodePoint.
  intros [H1 H2]%andb_prop [H3 H4]%andb_prop.
  apply N.leb_le in H1, H2, H3, H4. lia.
Qed.

Lemma uriUnescaped_safe (c : N) : uriUnescaped c = true -> uriSafe c = true.
Proof. unfold uriSafe. now intros ->. Qed.

(** On a well-formed string the encoding succeeds, and it is made of
    unreserved characters and percent escapes only. *)
Lemma encodeURIComponent_wellFormed (s : jsstring) :
  isWellFormed s = true ->
  exists enc, encodeURIComponent s = Normal enc
              /\ (forallb isCodeUnit s = true -> forallb uriSafe enc = true).
Proof.
  remember (length s) as n eqn:Hn.
  assert (Hle : (length s <= n)%nat) by lia. clear Hn.
  revert s Hle. induction n as [|n IH]; intros s Hle Hwf.
  { destruct s; [|simpl in Hle; lia]. now exists []. }
  destruct s as [|c rest]; [now exists []|].
  simpl in Hle. cbn [encodeURIComponent isWellFormed forallb] in *.
  destruct (uriUnescaped c) eqn:Hu.
  - assert (Hrest : isWellFormed rest = true).
    { destruct (isTrailingSurrogate c) eqn:Ht.
      - exfalso. revert Hu Ht. unfold uriUnescaped, isAsciiAlpha, isAsciiUpper,
          isAsciiLower, isAsciiDigit, isTrailingSurrogate.
        rewrite !orb_true_iff, !andb_true_iff, !N.leb_le, !N.eqb_eq. lia.
      - destruct (isLeadingSurrogate c) eqn:Hl; [|exact Hwf].
        exfalso. revert Hu Hl. unfold uriUnescaped, isAsciiAlpha, isAsciiUpper,
          isAsciiLower, isAsciiDigit, isLeadingSurrogate.
        rewrite !orb_true_iff, !andb_true_iff, !N.leb_le, !N.eqb_eq. lia. }
    destruct (IH rest ltac:(lia) Hrest) as (enc & -> & Hsafe).
    exists (c :: enc). split; [reflexivity|].
    intros [_ Hr]%andb_prop. cbn [forallb].
    now rewrite (uriUnescaped_safe _ Hu), (Hsafe Hr).
  - destruct (isTrailingSurrogate c) eqn:Ht; [discriminate|].
    destruct (isLeadingSurrogate c) eqn:Hl.
    + destruct rest as [|c2 rest']; [discriminate|].
      apply andb_prop in Hwf as [Ht2 Hwf]. rewrite Ht2.
      simpl in Hle.
      destruct (IH rest' ltac:(lia) Hwf) as (enc & -> & Hsafe).
      eexists. split; [reflexivity|].
      cbn [forallb]. intros [_ [_ Hr]%andb_prop]%andb_prop.
      rewrite forallb_app, (Hsafe Hr), percentOctets_safe; [reflexivity|].
      apply utf8Encode_octets, surrogatePair_range; assumption.
    + destruct (IH rest ltac:(lia) Hwf) as (enc & -> & Hsafe).
      eexists. split; [reflexivity|].
      intros [Hc Hr]%andb_prop.
      rewrite forallb_app, (Hsafe Hr), percentOctets_safe; [reflexivity|].
      apply utf8Encode_octets. apply N.ltb_lt in Hc. lia.
Qed.

Lemma forallb_dropWhile {A} (q p : A -> bool) (l : list A) :
  forallb q l = true -> forallb q (dropWhile p l) = true.
Proof.
  induction l as [|x l IH]; simpl; [reflexivity|].
  intros [Hx Hl]%andb_prop. destruct (p x); [auto|].
  simpl. now rewrite Hx, Hl.
Qed.

Lemma forallb_trim (q : N -> bool) (s : jsstring) :
  forallb q s = true -> forallb q (trim s) = true.
Proof.
  intros Hs. unfold trim, trimEnd, trimStart.
  rewrite forallb_rev. apply forallb_dropWhile.
  rewrite forallb_rev. now apply forallb_dropWhile.
Qed.

Lemma validateLocationInput_eq (s : jsstring) :
  validateLocationInput s =
  match s with
  | [] => VString []
  | _ :: _ => VBool (0 <? length (trim s))%nat
  end.
Proof. destruct s; reflexivity. Qed.

Lemma trim_length_whitespace (s : jsstring) :
  (0 <? length (trim s))%nat = negb (forallb isWhiteSpace s).
Proof.
  destruct (forallb isWhiteSpace s) eqn:Hs.
  - now rewrite (trim_whitespace_only _ Hs).
  - destruct (trim s) eqn:Ht; [|reflexivity].
    apply trim_nil_whitespace_only in Ht. congruence.
Qed.

Lemma validateLocationInput_truthy (s : jsstring) :
  ToBoolean (validateLocationInput s) = (0 <? length (trim s))%nat.
Proof. rewrite validateLocationInput_eq. destruct s; reflexivity. Qed.

(* ================================================================== *)
(** * Input Validator *)
(* ================================================================== *)

(** C1. [validateLocationInput] is a pure function of its argument.  Under
    the strict comparison it is [true] exactly when the trimmed argument
    has a length above zero, and it is truthy exactly then; on a string
    that is not empty and holds whitespace only it is [false]; on the empty
    string it is the empty string itself, not [false]. *)
Theorem validateLocationInput_empty_string :
  validateLocationInput [] = VString []
  /\ strictlyEquals (validateLocationInput []) false = false
  /\ (forall s, strictlyEquals (validateLocationInput s) true
                = (0 <? length (trim s))%nat)
  /\ (forall s, ToBoolean (validateLocationInput s) = (0 <? length (trim s))%nat)
  /\ (forall c s, strictlyEquals (validateLocationInput (c :: s)) false
                  = forallb isWhiteSpace (c :: s)).
Proof.
  split; [reflexivity|]. split; [reflexivity|]. split; [|split].
  - intros s. rewrite validateLocationInput_eq. destruct s; [reflexivity|].
    cbn [strictlyEquals]. now destruct (0 <? _)%nat.
  - apply validateLocationInput_truthy.
  - intros c s. rewrite validateLocationInput_eq. cbn [strictlyEquals].
    rewrite trim_length_whitespace. now destruct (forallb _ _).
Qed.

(* ================================================================== *)
(** * Request Builder *)
(* ================================================================== *)

(** C10. The builder trims its argument itself: a location and its trimmed
    form give the same URL, or fail alike. *)
Theorem buildWeatherApiUrl_trim (s : jsstring) :
  buildWeatherApiUrl s = buildWeatherApiUrl (trim s).
Proof. unfold buildWeatherApiUrl. now rewrite trim_idem. Qed.

(** C7, as the code has it.  For a validated location (a list of 16-bit
    code units, as every string is) whose trimmed form has no unpaired
    surrogate, the builder returns the base endpoint, the key,
    the percent-encoded trimmed location and the options, joined as
    [base?key=KEY&q=LOCATION&OPTIONS]; the encoded location is made of
    unreserved characters and percent escapes only.  For "Paris" the URL
    contains "q=Paris". *)
Theorem buildWeatherApiUrl_validated (location : jsstring) :
  validateLocationInput location = VBool true ->
  isWellFormed (trim location) = true ->
  forallb isCodeUnit location = true ->
  (exists encodedLocation,
      encodeURIComponent (trim location) = Normal encodedLocation
      /\ buildWeatherApiUrl location
         = Normal (WEATHER_API_CONFIG.baseUrl ++ js "?key="
                   ++ WEATHER_API_CONFIG.apiKey ++ js "&q=" ++ encodedLocation
                   ++ js "&" ++ WEATHER_API_CONFIG.options)
      /\ forallb uriSafe encodedLocation = true)
  /\ (exists url, buildWeatherApiUrl (js "Paris") = Normal url
                  /\ includes url (js "q=Paris") = true).
Proof.
  intros _ Hwf Hunits. split.
  - destruct (encodeURIComponent_wellFormed _ Hwf) as (enc & Henc & Hsafe).
    exists enc. split; [exact Henc|]. split.
    + unfold buildWeatherApiUrl. now rewrite Henc.
    + apply Hsafe. now apply forallb_trim.
  - eexists. split; [reflexivity|]. vm_compute. reflexivity.
Qed.

Lemma buildWeatherApiUrl_validated_witness :
  exists url, buildWeatherApiUrl (js " New York ") = Normal url
              /\ includes url (js "&q=New%20York&") = true.
Proof.
  destruct (buildWeatherApiUrl_validated (js " New York ")) as [(enc & Henc & Hurl & _) _];
    [reflexivity | reflexivity | reflexivity |].
  eexists. split; [exact Hurl|].
  vm_compute in Henc. injection Henc as <-. vm_compute. reflexivity.
Defined.

(** C7, counterexample.  A lone surrogate passes the validator and makes
    the builder raise [URIError]: no URL is produced. *)
Lemma buildWeatherApiUrl_lone_surrogate :
  validateLocationInput [0xD800] = VBool true
  /\ buildWeatherApiUrl [0xD800] = Throw URIError.
Proof. split; reflexivity. Qed.

(** C8, as the code has it.  For every string that is not empty once
    trimmed and whose trimmed form has no unpaired surrogate, the validator
    returns [true] and the builder returns a URL that contains the
    percent-encoded form of the trimmed string. *)
Theorem validated_and_built (s : jsstring) :
  trim s <> [] ->
  isWellFormed (trim s) = true ->
  validateLocationInput s = VBool true
  /\ exists enc url,
       encodeURIComponent (trim s) = Normal enc
       /\ buildWeatherApiUrl s = Normal url
       /\ includes url enc = true.
Proof.
  intros Hne Hwf. split.
  - rewrite validateLocationInput_eq. destruct s as [|c s]; [now destruct Hne|].
    destruct (trim (c :: s)); [now destruct Hne | reflexivity].
  - destruct (encodeURIComponent_wellFormed _ Hwf) as (enc & Henc & _).
    exists enc. eexists. split; [exact Henc|]. split.
    + unfold buildWeatherApiUrl. rewrite Henc. reflexivity.
    + apply includes_infix.
      exists (WEATHER_API_CONFIG.baseUrl ++ js "?key=" ++ WEATHER_API_CONFIG.apiKey
              ++ js "&q="), (js "&" ++ WEATHER_API_CONFIG.options).
      unfold apiUrlOf. now rewrite <- !app_assoc.
Qed.

Lemma validated_and_built_witness :
  validateLocationInput (js " Rio de Janeiro") = VBool true
  /\ exists enc url,
       encodeURIComponent (trim (js " Rio de Janeiro")) = Normal enc
       /\ buildWeatherApiUrl (js " Rio de Janeiro") = Normal url
       /\ includes url enc = true.
Proof.
  apply (validated_and_built (js " Rio de Janeiro")).
  - vm_compute. discriminate.
  - reflexivity.
Defined.

(** C8, counterexample.  A string of one space is not empty and the
    validator returns [false] on it; a lone surrogate is not empty and the
    builder produces no URL for it. *)
Lemma nonempty_not_validated :
  js " " <> []
  /\ validateLocationInput (js " ") = VBool false
  /\ [0xD800] <> ([] : jsstring)
  /\ buildWeatherApiUrl [0xD800] = Throw URIError.
Proof. repeat split; discriminate. Qed.

(* ================================================================== *)
(** * Display Formatter *)
(* ================================================================== *)

Lemma asciiToLower_upper (c : N) : asciiToLower (asciiToUpper c) = asciiToLower c.
Proof.
  unfold asciiToUpper. destruct (isAsciiLower c) eqn:Hl; [|reflexivity].
  unfold isAsciiLower in Hl. apply andb_prop in Hl as [H1%N.leb_le H2%N.leb_le].
  unfold asciiToLower.
  replace (isAsciiUpper (c - 32)) with true
    by (symmetry; unfold isAsciiUpper; apply andb_true_intro; split; apply N.leb_le; lia).
  replace (isAsciiUpper c) with false
    by (symmetry; unfold isAsciiUpper; apply andb_false_intro2, N.leb_gt; lia).
  lia.
Qed.

Lemma isAscii_upper (c : N) : isAscii c = true -> isAscii (asciiToUpper c) = true.
Proof.
  unfold isAscii, asciiToUpper. intros Hc%N.ltb_lt. apply N.ltb_lt.
  destruct (isAsciiLower c); lia.
Qed.

Lemma toLowerCase_upper `{Host} (c : jsstring) :
  forallb isAscii c = true -> toLowerCase (map asciiToUpper c) = toLowerCase c.
Proof.
  intros Hc. unfold toLowerCase. rewrite Hc.
  assert (Hup : forallb isAscii (map asciiToUpper c) = true).
  { induction c as [|x c IH]; [reflexivity|].
    cbn [map forallb] in *. apply andb_prop in Hc as [Hx Hc].
    now rewrite (isAscii_upper _ Hx), (IH Hc). }
  rewrite Hup, map_map. apply map_ext. intros x. apply asciiToLower_upper.
Qed.

Lemma getWeatherEmoji_firstMatch `{Host} (c : jsstring) :
  getWeatherEmoji (VString c)
  = Normal (firstMatch keywordCategories ICON_DEFAULT (toLowerCase c)).
Proof.
  unfold getWeatherEmoji. cbn [call_toLowerCase mbind completion_bind mret completion_ret].
  f_equal. unfold keywordCategories. cbn [firstMatch existsb].
  rewrite !orb_false_r. reflexivity.
Qed.

(** C5, as the code has it.  For every condition string the emoji is the
    one of the first category, in the order sunny/clear, cloud,
    rain/drizzle, snow, thunder/storm, fog/mist, wind, one of whose
    keywords occurs in the lower-cased condition, and the default emoji
    when no keyword occurs; "Patchy rain possible" selects the rain/drizzle
    emoji; on ASCII text the case of the letters does not matter. *)
Theorem getWeatherEmoji_categories `{Host} (c : jsstring) :
  getWeatherEmoji (VString c)
  = Normal (firstMatch keywordCategories ICON_DEFAULT (toLowerCase c))
  /\ getWeatherEmoji (VString (js "Patchy rain possible")) = Normal ICON_RAIN
  /\ (forallb isAscii c = true ->
      getWeatherEmoji (VString (map asciiToUpper c)) = getWeatherEmoji (VString c)).
Proof.
  split; [apply getWeatherEmoji_firstMatch|]. split; [reflexivity|].
  intros Hc. rewrite !getWeatherEmoji_firstMatch. now rewrite toLowerCase_upper.
Qed.

Lemma getWeatherEmoji_categories_witness :
  @getWeatherEmoji sampleHost (VString (js "LIGHT SNOW SHOWERS")) = Normal ICON_SNOW
  /\ @getWeatherEmoji sampleHost (VString (js "light snow showers")) = Normal ICON_SNOW.
Proof.
  destruct (@getWeatherEmoji_categories sampleHost (js "light snow showers"))
    as (Hfirst & _ & Hcase).
  assert (Hlower : @getWeatherEmoji sampleHost (VString (js "light snow showers"))
                   = Normal ICON_SNOW) by (rewrite Hfirst; reflexivity).
  split; [|exact Hlower].
  rewrite <- Hlower. exact (Hcase eq_refl).
Defined.

(** C5, counterexample.  "Clouds" holds the keyword [cloud] of the source
    and gets the cloud emoji; it does not hold [cloudy], so the selection
    worded by the specification gives the default emoji.  Likewise "Wind"
    and [windy]. *)
Lemma getWeatherEmoji_not_spec_keywords :
  @getWeatherEmoji sampleHost (VString (js "Clouds")) = Normal ICON_CLOUD
  /\ @specWeatherEmoji sampleHost (js "Clouds") = ICON_DEFAULT
  /\ @getWeatherEmoji sampleHost (VString (js "Wind")) = Normal ICON_WIND
  /\ @specWeatherEmoji sampleHost (js "Wind") = ICON_DEFAULT
  /\ ICON_CLOUD <> ICON_DEFAULT /\ ICON_WIND <> ICON_DEFAULT.
Proof. repeat split; discriminate. Qed.

(** [Math.round] gives the nearest integer, the upper one on a tie. *)
Lemma Math_round_nearest (q : Q) :
  exists z : Z, Math_round (Finite q) = Finite (inject_Z z)
                /\ (inject_Z z - (1 # 2) <= q)%Q /\ (q < inject_Z z + (1 # 2))%Q.
Proof.
  exists (Qfloor (q + (1 # 2))). split; [reflexivity|].
  pose proof (Qfloor_le (q + (1 # 2))) as Hle.
  pose proof (Qlt_floor (q + (1 # 2))) as Hlt.
  rewrite inject_Z_plus in Hlt. change (inject_Z 1) with 1%Q in Hlt.
  split; lra.
Qed.

Lemma formatWeatherDisplay_responseBody `{Host} (w : WeatherResponse) :
  formatWeatherDisplay (responseBody w)
  = Normal (weatherTemplate
              (location_name w ++ js ", " ++ location_country w)
              (NumberToString (Math_round (Finite (temp_c w))))
              (firstMatch keywordCategories ICON_DEFAULT (toLowerCase (condition_text w)))
              (condition_text w)).
Proof.
  unfold formatWeatherDisplay, responseBody.
  cbn [getProp mbind completion_bind mret completion_ret fmap completion_fmap cmap].
  change (lookupProp (js "current") _) with
    (VObject [ (js "temp_c", VNumber (Finite (temp_c w)));
               (js "condition", VObject [ (js "text", VString (condition_text w)) ]) ]).
  change (lookupProp (js "location") _) with
    (VObject [ (js "name", VString (location_name w));
               (js "country", VString (location_country w)) ]).
  cbn [getProp mbind completion_bind].
  change (lookupProp (js "temp_c") _) with (VNumber (Finite (temp_c w))).
  change (lookupProp (js "condition") _) with
    (VObject [ (js "text", VString (condition_text w)) ]).
  change (lookupProp (js "name") _) with (VString (location_name w)).
  change (lookupProp (js "country") _) with (VString (location_country w)).
  cbn [getProp ToNumber ToString mbind completion_bind mret completion_ret
       fmap completion_fmap cmap].
  change (lookupProp (js "text") _) with (VString (condition_text w)).
  rewrite getWeatherEmoji_firstMatch.
  reflexivity.
Qed.

(** C6, on the code.  On a response of the expected shape the fragment is
    the template filled with "name, country", the temperature rounded by
    [Math.round] (the nearest integer, the upper one on a tie), the emoji
    of the condition and the condition text; 21.6 is rounded to 22.  For the mocked Paris response the fragment holds
    "Paris, France" and "18" followed by the unit literal of the source,
    whose code units are U+00AC U+221E "C": the text "18°C" (with U+00B0)
    does not occur in it, nor does the sun character U+2600; the emoji
    literal of the sunny branch of the source does. *)
Theorem formatWeatherDisplay_paris `{Host} :
  (forall w, formatWeatherDisplay (responseBody w)
             = Normal (weatherTemplate
                         (location_name w ++ js ", " ++ location_country w)
                         (NumberToString (Math_round (Finite (temp_c w))))
                         (firstMatch keywordCategories ICON_DEFAULT
                                     (toLowerCase (condition_text w)))
                         (condition_text w)))
  /\ (forall q, exists z : Z,
         Math_round (Finite q) = Finite (inject_Z z)
         /\ (inject_Z z - (1 # 2) <= q)%Q /\ (q < inject_Z z + (1 # 2))%Q)
  /\ NumberToString (Math_round (Finite (216 # 10))) = js "22"
  /\ exists fragment,
       formatWeatherDisplay (responseBody parisResponse) = Normal fragment
       /\ fragment = weatherTemplate (js "Paris, France") (js "18") ICON_SUNNY (js "Sunny")
       /\ includes fragment (js "Paris, France") = true
       /\ includes fragment (js "18" ++ TEMPERATURE_UNIT) = true
       /\ includes fragment (js "18" ++ [0xB0; 67]) = false
       /\ includes fragment ICON_SUNNY = true
       /\ includes fragment [0x2600] = false.
Proof.
  split; [apply formatWeatherDisplay_responseBody|].
  split; [apply Math_round_nearest|]. split; [reflexivity|].
  eexists. split; [apply formatWeatherDisplay_responseBody|].
  repeat split; vm_compute; reflexivity.
Qed.

(* ================================================================== *)
(** * Fetch Client *)
(* ================================================================== *)

Lemma ok_range (r : Response) : ok r = true <-> 200 <= status r <= 299.
Proof. unfold ok. rewrite andb_true_iff, !N.leb_le. reflexivity. Qed.

Lemma run_bind {A B} (m : M A) (f : A -> M B) st a st1 :
  m st = (Normal a, st1) -> (m ≫= f) st = f a st1.
Proof. intros Hm. unfold mbind, M_bind. now rewrite Hm. Qed.

Lemma run_bind_throw {A B} (m : M A) (f : A -> M B) st e st1 :
  m st = (Throw e, st1) -> (m ≫= f) st = (Throw e, st1).
Proof. intros Hm. unfold mbind, M_bind. now rewrite Hm. Qed.

Lemma fetchWeatherData_run (net : Network) (location url : jsstring) (r : Response)
    (st : State) :
  buildWeatherApiUrl location = Normal url ->
  net url = Resolved r ->
  fetchWeatherData net location st
  = (if ok r then json r else Throw (Error (notAvailable (status r))),
     set_trace (fun t => t ++ [fetch_call url]) st).
Proof.
  intros Hurl Hnet. unfold fetchWeatherData, fetch.
  rewrite Hurl.
  erewrite run_bind by reflexivity.
  erewrite (run_bind (_ ≫= _)).
  2:{ erewrite run_bind by reflexivity. rewrite Hnet. reflexivity. }
  destruct (ok r); reflexivity.
Qed.

(** C2. When the request resolves with a response whose status is outside
    200-299, [fetchWeatherData] throws an [Error] whose message is
    "Weather data not available (STATUS)" and holds the decimal digits of
    the status; when the status is within 200-299 it returns what
    [response.json()] gives, the parsed body. *)
Theorem fetchWeatherData_by_status (net : Network) (location url : jsstring)
    (r : Response) (st : State) :
  buildWeatherApiUrl location = Normal url ->
  net url = Resolved r ->
  ((status r < 200 \/ 299 < status r) ->
     fst (fetchWeatherData net location st) = Throw (Error (notAvailable (status r)))
     /\ includes (notAvailable (status r)) (decimal (Z.of_N (status r))) = true)
  /\ (200 <= status r <= 299 ->
     fst (fetchWeatherData net location st) = json r).
Proof.
  intros Hurl Hnet. rewrite (fetchWeatherData_run _ _ _ _ _ Hurl Hnet). cbn [fst].
  split.
  - intros Hs. split.
    + destruct (ok r) eqn:Hok; [|reflexivity].
      apply ok_range in Hok. lia.
    + apply includes_middle.
  - intros Hs. apply ok_range in Hs. now rewrite Hs.
Qed.

Lemma fetchWeatherData_by_status_witness :
  (fst (fetchWeatherData (respondWith badRequest) (js "Paris") (readyPage (js "Paris")))
   = Throw (Error (js "Weather data not available (400)"))
   /\ includes (js "Weather data not available (400)") (js "400") = true)
  /\ fst (fetchWeatherData (respondWith (parisReply VNull)) (js "Paris")
                           (readyPage (js "Paris")))
     = Normal VNull.
Proof.
  split.
  - destruct (fetchWeatherData_by_status (respondWith badRequest) (js "Paris")
                (apiUrlOf (js "Paris")) badRequest
                (readyPage (js "Paris")) eq_refl eq_refl) as [Hfail _].
    apply Hfail. right. reflexivity.
  - destruct (fetchWeatherData_by_status (respondWith (parisReply VNull)) (js "Paris")
                (apiUrlOf (js "Paris")) (parisReply VNull)
                (readyPage (js "Paris")) eq_refl eq_refl) as [_ Hok].
    apply Hok. split; discriminate.
Defined.

(* ================================================================== *)
(** * Running and bounding computations *)
(* ================================================================== *)

Lemma run_updateElement (fault_of : string -> fault) (prop id : string)
    (f : Element -> Element) (st : State) (e : Element) :
  document st !! id = Some e ->
  updateElement fault_of prop (Some id) f st
  = (Normal tt, set_document (insert id (f e)) st).
Proof. intros He. unfold updateElement, deref. now rewrite He. Qed.

Lemma run_readElement {A} (prop id : string) (f : Element -> A) (st : State)
    (e : Element) :
  document st !! id = Some e ->
  readElement prop (Some id) f st = (Normal (f e), st).
Proof. intros He. unfold readElement, deref. now rewrite He. Qed.

Section Preservation.
Context (I : State -> Prop).

Lemma preserves_ret {A} (a : A) : preserves I (mret a).
Proof. intros st HI. exact HI. Qed.

Lemma preserves_throw {A} (e : exn) : preserves I (@throw A e).
Proof. intros st HI. exact HI. Qed.

Lemma preserves_lift {A} (c : completion A) : preserves I (lift c).
Proof. intros st HI. exact HI. Qed.

Lemma preserves_gets {A} (f : State -> A) : preserves I (gets f).
Proof. intros st HI. exact HI. Qed.

Lemma preserves_readElement {A} prop ref (f : Element -> A) :
  preserves I (readElement prop ref f).
Proof. intros st HI. unfold readElement. now destruct (deref ref st). Qed.

Lemma preserves_bind {A B} (m : M A) (f : A -> M B) :
  preserves I m -> (forall a, preserves I (f a)) -> preserves I (m ≫= f).
Proof.
  intros Hm Hf st HI. unfold mbind, M_bind.
  specialize (Hm st HI). destruct (m st) as [[a|e] st1]; cbn [snd] in *.
  - now apply Hf.
  - exact Hm.
Qed.

Lemma preserves_emit (e : event) :
  (forall st, I st -> I (set_trace (fun t => t ++ [e]) st)) -> preserves I (emit e).
Proof. intros He st HI. now apply He. Qed.

Lemma preserves_updateElement fault_of prop ref (f : Element -> Element) :
  (forall st id e, I st -> document st !! id = Some e ->
                   I (set_document (insert id (f e)) st)) ->
  preserves I (updateElement fault_of prop ref f).
Proof.
  intros Hf st HI. unfold updateElement.
  destruct ref as [id|]; [|exact HI]. cbn [deref].
  destruct (document st !! id) eqn:He; [|exact HI]. now apply Hf.
Qed.



(** What runs after the [try] block and its handler runs on a state that
    satisfies every invariant they both keep. *)
Lemma try_catch_finally_final (Q : State -> Prop) (body : M unit)
    (handler : exn -> M unit) (final : M unit) (st : State) :
  I st -> preserves I body -> (forall e, preserves I (handler e)) ->
  (forall s, I s -> Q (snd (final s))) ->
  Q (snd (try_catch_finally body handler final st)).
Proof.
  intros HI Hb Hh Hf. unfold try_catch_finally.
  specialize (Hb st HI). destruct (body st) as [[[]|e] st1]; cbn [snd] in Hb.
  - specialize (Hf st1 Hb). now destruct (final st1) as [[[]|e'] st2].
  - specialize (Hh e st1 Hb). destruct (handler e st1) as [r st2]; cbn [snd] in Hh.
    specialize (Hf st2 Hh). now destruct (final st2) as [[[]|e'] st3].
Qed.

End Preservation.

Ltac preserves_step :=
  lazymatch goal with
  | |- preserves _ (_ ≫= _) => apply preserves_bind; [|intros ?]
  | |- preserves _ (mret _) => apply preserves_ret
  | |- preserves _ (throw _) => apply preserves_throw
  | |- preserves _ (lift _) => apply preserves_lift
  | |- preserves _ (gets _) => apply preserves_gets
  | |- preserves _ (readElement _ _ _) => apply preserves_readElement
  | |- preserves _ (emit _) => apply preserves_emit
  | |- preserves _ (updateElement _ _ _ _) => apply preserves_updateElement
  | |- preserves _ (if ?c then _ else _) => destruct c
  | |- preserves _ (match ?c with _ => _ end) => destruct c
  end.

Create HintDb preserves.

(** The functions of the script keep every invariant that no GSAP call, no
    console call, no timer and no update of an element of the page can
    break. *)
Section Programs.
Context (I : State -> Prop).
Hypothesis I_emit :
  forall e st, isFetch e = false -> I st -> I (set_trace (fun t => t ++ [e]) st).
Hypothesis I_update :
  forall id v st, I st -> is_Some (document st !! id) ->
                  I (set_document (insert id v) st).

Local Ltac side :=
  first [ intros ? ?; apply I_emit; [reflexivity | assumption]
        | intros ? ? ? ? Hlook; apply I_update; [assumption | rewrite Hlook; eauto] ].

Local Ltac preserves_auto := repeat preserves_step; try side; eauto with preserves.

Lemma animateWeatherResult_preserves : preserves I animateWeatherResult.
Proof. unfold animateWeatherResult, getElementById. preserves_auto. Qed.
Hint Resolve animateWeatherResult_preserves : preserves.

Lemma displayMessage_preserves message messageType :
  preserves I (displayMessage message messageType).
Proof. unfold displayMessage. preserves_auto. Qed.
Hint Resolve displayMessage_preserves : preserves.

Lemma showWeatherResult_preserves : preserves I showWeatherResult.
Proof. unfold showWeatherResult. preserves_auto. Qed.
Hint Resolve showWeatherResult_preserves : preserves.

Lemma animateButtonLoading_preserves isLoading :
  preserves I (animateButtonLoading isLoading).
Proof. unfold animateButtonLoading. preserves_auto. Qed.
Hint Resolve animateButtonLoading_preserves : preserves.

Lemma lookupCatch_preserves `{Host} error : preserves I (lookupCatch error).
Proof. unfold lookupCatch. preserves_auto. Qed.

Lemma lookupFinally_preserves : preserves I lookupFinally.
Proof. unfold lookupFinally. preserves_auto. Qed.

Lemma lookupBody_preserves `{Host} net locationInput :
  (forall url st, I st -> I (set_trace (fun t => t ++ [fetch_call url]) st)) ->
  preserves I (lookupBody net locationInput).
Proof.
  intros I_fetch. unfold lookupBody, fetchWeatherData, fetch.
  preserves_auto.
Qed.

End Programs.

(* ================================================================== *)
(** * Presentation Controller *)
(* ================================================================== *)

Lemma buttonIs_emit (b : string) (e : event) (st : State) :
  buttonIs b st -> buttonIs b (set_trace (fun t => t ++ [e]) st).
Proof. intros HI. exact HI. Qed.

Lemma buttonIs_update (b id : string) (v : Element) (st : State) :
  buttonIs b st -> buttonIs b (set_document (insert id v) st).
Proof.
  intros [Hb He]. split; [exact Hb|]. cbn [set_document document].
  destruct (decide (id = b)) as [->|Hne].
  - rewrite lookup_insert_eq. eauto.
  - now rewrite lookup_insert_ne.
Qed.

Lemma requests_emit (k : list event) (e : event) (st : State) :
  isFetch e = false -> requests st = k ->
  requests (set_trace (fun t => t ++ [e]) st) = k.
Proof.
  intros He Hk. unfold requests in *. cbn [set_trace trace].
  rewrite List.filter_app. cbn [List.filter]. rewrite He, Hk. apply app_nil_r.
Qed.

Lemma classList_remove_absent (tok : string) (l : list string) :
  bool_decide (tok ∈ classList_remove tok l) = false.
Proof.
  apply bool_decide_eq_false_2. unfold classList_remove.
  rewrite list_elem_of_filter. tauto.
Qed.

Lemma lookupFinally_run (b : string) (e : Element) (st : State) :
  searchButtonElement st = Some b ->
  document st !! b = Some e ->
  lookupFinally st
  = (Normal tt,
     set_trace (fun t => (t ++ [gsap gsap_killTweensOf (Some (selector ".loader-dot"))])
                           ++ [gsap gsap_to (Some (element (Some b)))])
       (set_document
          (fun d => <[b := set_classList (classList_remove CSS_CLASSES.loading)
                             (set_disabled false e)]>
                      (<[b := set_disabled false e]> d))
          st)).
Proof.
  intros Hb He. unfold lookupFinally, animateButtonLoading.
  erewrite run_bind by reflexivity. rewrite Hb.
  erewrite run_bind by (apply run_updateElement, He).
  erewrite run_bind by reflexivity. cbn [searchButtonElement set_document].
  rewrite Hb.
  erewrite run_bind by (apply run_updateElement; apply lookup_insert_eq).
  erewrite run_bind by reflexivity.
  reflexivity.
Qed.

(** C4. Once a lookup has passed validation, whatever the network answers
    and however formatting ends, the lookup leaves the trigger control
    enabled and without its loading class, and its last two calls are the
    ones that stop the loading animation. *)
Theorem lookup_cleanup `{Host} (net : Network) (st : State)
    (input button : string) (e_input e_button : Element) :
  locationInputElement st = Some input ->
  document st !! input = Some e_input ->
  trim (value e_input) <> [] ->
  searchButtonElement st = Some button ->
  document st !! button = Some e_button ->
  let st' := snd (getWeatherInformation net st) in
  buttonDisabled st' = Some false
  /\ buttonLoading st' = Some false
  /\ exists t, trace st' = t ++ loadingStopped button.
Proof.
  intros Hi Hei Hne Hb Heb st'. subst st'. unfold getWeatherInformation.
  erewrite run_bind by reflexivity. rewrite Hi.
  erewrite run_bind by (apply run_readElement, Hei).
  assert (Hvalid : ToBoolean (validateLocationInput (trim (value e_input))) = true).
  { rewrite validateLocationInput_truthy, trim_idem. destruct (trim (value e_input)); [now destruct Hne | reflexivity]. }
  rewrite Hvalid. cbn [negb].
  apply (try_catch_finally_final (buttonIs button)).
  - split; [exact Hb | rewrite Heb; eauto].
  - apply lookupBody_preserves; intros; first [apply buttonIs_emit | apply buttonIs_update]; assumption.
  - intros e. apply lookupCatch_preserves; intros;
      first [apply buttonIs_emit | apply buttonIs_update]; assumption.
  - intros s [Hsb [e He]]. rewrite (lookupFinally_run _ _ _ Hsb He). cbn [snd].
    unfold buttonDisabled, buttonLoading.
    cbn [searchButtonElement set_trace set_document trace].
    rewrite Hsb. cbn [deref document set_trace set_document].
    rewrite lookup_insert_eq. cbn [fmap option_fmap option_map classList set_classList disabled set_disabled].
    rewrite classList_remove_absent. repeat split.
    exists (trace s). now rewrite <- app_assoc.
Qed.

Lemma lookup_cleanup_witness :
  let st' := snd (@getWeatherInformation sampleHost (respondWith badRequest)
                                         (readyPage (js "Paris"))) in
  buttonDisabled st' = Some false
  /\ buttonLoading st' = Some false
  /\ exists t, trace st' = t ++ loadingStopped DOM_ELEMENTS.searchButton.
Proof.
  apply (@lookup_cleanup sampleHost (respondWith badRequest) (readyPage (js "Paris"))
           DOM_ELEMENTS.locationInput DOM_ELEMENTS.searchButton
           {| classList := []; disabled := false; value := js "Paris";
              content_of := textContent []; listeners := [] |}
           emptyElement).
  - reflexivity.
  - vm_compute. reflexivity.
  - vm_compute. discriminate.
  - reflexivity.
  - vm_compute. reflexivity.
Defined.

(** The three ways out of a lookup, run on the page of the examples: a
    successful answer, a status 400, and a body without the expected
    fields.  Each leaves the control enabled and not loading. *)
Example lookup_success :
  let st' := snd (@getWeatherInformation sampleHost
                    (respondWith (parisReply (responseBody parisResponse)))
                    (readyPage (js "Paris"))) in
  content_of <$> deref (weatherResultElement st') st'
  = Some (innerHTML (weatherTemplate (js "Paris, France") (js "18")
                                     ICON_SUNNY (js "Sunny")))
  /\ buttonDisabled st' = Some false /\ buttonLoading st' = Some false.
Proof. vm_compute. repeat split. Qed.

Example lookup_fetch_failure :
  let st' := snd (@getWeatherInformation sampleHost (respondWith badRequest)
                    (readyPage (js "Paris"))) in
  content_of <$> deref (weatherResultElement st') st'
  = Some (textContent (ERROR_MARK ++ js " Error: Weather data not available (400)"))
  /\ buttonDisabled st' = Some false /\ buttonLoading st' = Some false.
Proof. vm_compute. repeat split. Qed.

Example lookup_formatting_failure :
  let st' := snd (@getWeatherInformation sampleHost (respondWith (parisReply (VObject [])))
                    (readyPage (js "Paris"))) in
  content_of <$> deref (weatherResultElement st') st'
  = Some (textContent (ERROR_MARK ++ js " Error: engine error"))
  /\ buttonDisabled st' = Some false /\ buttonLoading st' = Some false.
Proof. vm_compute. repeat split. Qed.

Lemma getWeatherInformation_blank `{Host} (net : Network) (st : State)
    (input : string) (e_input : Element) :
  locationInputElement st = Some input ->
  document st !! input = Some e_input ->
  trim (value e_input) = [] ->
  getWeatherInformation net st = displayMessage PLEASE_ENTER "warning" st.
Proof.
  intros Hi Hei Hblank. unfold getWeatherInformation.
  erewrite run_bind by reflexivity. rewrite Hi.
  erewrite run_bind by (apply run_readElement, Hei).
  rewrite Hblank. reflexivity.
Qed.

Lemma displayMessage_requests (message : jsstring) (messageType : string) (st : State) :
  requests (snd (displayMessage message messageType st)) = requests st.
Proof.
  apply (displayMessage_preserves (fun s => requests s = requests st)); [| |reflexivity].
  - intros e s He Hs. now apply requests_emit.
  - intros id v s Hs _. exact Hs.
Qed.

Lemma displayMessage_warning_run (message : jsstring) (st : State) (e : Element) :
  weatherResultElement st = Some DOM_ELEMENTS.weatherResult ->
  document st !! DOM_ELEMENTS.weatherResult = Some e ->
  exists e',
    displayMessage message "warning" st
    = (Normal tt,
       set_trace (fun t => t ++ [gsap gsap_set (Some (element (Some DOM_ELEMENTS.weatherResult)));
                                 gsap gsap_to (Some (element (Some DOM_ELEMENTS.weatherResult)))])
         (set_document (fun d => <[DOM_ELEMENTS.weatherResult := e']> d) st))
    /\ content_of e' = textContent message
    /\ classList e' = ["weather-result-card"; "warning-message"; "show"]%string.
Proof.
  intros Hr He. eexists. split.
  - unfold displayMessage, animateWeatherResult, getElementById.
    erewrite run_bind by reflexivity. rewrite Hr. cbn [isNull].
    erewrite run_bind by (apply run_updateElement, He).
    rewrite bool_decide_eq_false_2 by discriminate.
    rewrite bool_decide_eq_true_2 by reflexivity.
    erewrite run_bind by (apply run_updateElement; apply lookup_insert_eq).
    erewrite run_bind by (apply run_updateElement; apply lookup_insert_eq).
    erewrite run_bind by reflexivity. cbn [document set_document].
    rewrite lookup_insert_eq.
    erewrite run_bind by reflexivity.
    erewrite run_bind by reflexivity.
    erewrite run_updateElement by apply lookup_insert_eq.
    unfold set_trace, set_document.
    cbn [document trace locationInputElement searchButtonElement weatherResultElement].
    rewrite !insert_insert_eq. rewrite <- app_assoc. reflexivity.
  - split; reflexivity.
Qed.

Lemma detached_blank_requests `{Host} (net : Network) (st : State)
    (input : string) (e_input : Element) :
  locationInputElement st = Some input ->
  document st !! input = Some e_input ->
  trim (value e_input) = [] ->
  requests (snd (detached (getWeatherInformation net) st)) = requests st.
Proof.
  intros Hi Hei Hblank. unfold detached.
  rewrite (getWeatherInformation_blank net st input e_input Hi Hei Hblank).
  pose proof (displayMessage_requests PLEASE_ENTER "warning" st) as Hreq.
  destruct (displayMessage PLEASE_ENTER "warning" st) as [[[]|e] st1]; cbn [snd] in *.
  - exact Hreq.
  - now apply requests_emit.
Qed.

(** C3. On an initialized page whose input field is empty or holds
    whitespace only, a submission (a call of [getWeatherInformation], a
    click, or the Enter key) issues no request: the lookup is the display
    of the warning, whatever the network would answer; it returns
    normally, and the result container shows the warning text with the
    warning class. *)
Theorem blank_submission `{Host} (net : Network) (st : State)
    (e_input e_result : Element) :
  initialized st ->
  document st !! DOM_ELEMENTS.locationInput = Some e_input ->
  document st !! DOM_ELEMENTS.weatherResult = Some e_result ->
  trim (value e_input) = [] ->
  getWeatherInformation net st = displayMessage PLEASE_ENTER "warning" st
  /\ fst (getWeatherInformation net st) = Normal tt
  /\ requests (snd (getWeatherInformation net st)) = requests st
  /\ requests (snd (handleSearchButtonClick net st)) = requests st
  /\ requests (snd (handleLocationInputKeyPress net {| key := js "Enter" |} st))
     = requests st
  /\ exists e',
       document (snd (getWeatherInformation net st)) !! DOM_ELEMENTS.weatherResult
       = Some e'
       /\ content_of e' = textContent PLEASE_ENTER
       /\ classList e' = [ "weather-result-card"; CSS_CLASSES.warningMessage;
                           CSS_CLASSES.show ].
Proof.
  intros (Hi & Hb & Hr & _) Hei Her Hblank.
  pose proof (getWeatherInformation_blank net st _ _ Hi Hei Hblank) as Hrun.
  destruct (displayMessage_warning_run PLEASE_ENTER st e_result Hr Her)
    as (e' & Hdisplay & Hcontent & Hclasses).
  split; [exact Hrun|]. rewrite Hrun.
  split; [now rewrite Hdisplay|].
  split; [apply displayMessage_requests|].
  split; [|split].
  - unfold handleSearchButtonClick. erewrite run_bind by reflexivity.
    etransitivity;
      [apply (detached_blank_requests net (set_trace _ st) _ _ Hi Hei Hblank)|].
    now apply requests_emit.
  - unfold handleLocationInputKeyPress.
    rewrite bool_decide_eq_true_2 by reflexivity.
    erewrite run_bind by reflexivity.
    etransitivity;
      [apply (detached_blank_requests net (set_trace _ st) _ _ Hi Hei Hblank)|].
    now apply requests_emit.
  - exists e'. rewrite Hdisplay. cbn [snd set_trace set_document document].
    rewrite lookup_insert_eq. auto.
Qed.

Lemma blank_submission_witness :
  fst (@getWeatherInformation sampleHost (respondWith badRequest) (readyPage (js "   ")))
  = Normal tt
  /\ requests (snd (@getWeatherInformation sampleHost (respondWith badRequest)
                                           (readyPage (js "   ")))) = [].
Proof.
  destruct (@blank_submission sampleHost (respondWith badRequest) (readyPage (js "   "))
              {| classList := []; disabled := false; value := js "   ";
                 content_of := textContent []; listeners := [] |}
              emptyElement)
    as (_ & Hret & Hreq & _).
  - repeat split; vm_compute; eauto.
  - vm_compute. reflexivity.
  - vm_compute. reflexivity.
  - reflexivity.
  - split; [exact Hret | exact Hreq].
Defined.

(* ================================================================== *)
(** * Initialization *)
(* ================================================================== *)

Lemma getElementByIdSafely_found (id : string) (e : Element) (st : State) :
  document st !! id = Some e ->
  getElementByIdSafely id st = (Normal (Some id), st).
Proof.
  intros He. unfold getElementByIdSafely, getElementById, gets.
  erewrite run_bind by reflexivity. now rewrite He.
Qed.

Lemma getElementByIdSafely_missing (id : string) (st : State) :
  document st !! id = None ->
  getElementByIdSafely id st
  = (Normal None,
     set_trace (fun t => t ++ [console_error (js "Element with ID '" ++ js id
                                                ++ js "' not found") None]) st).
Proof.
  intros He. unfold getElementByIdSafely, getElementById, gets.
  erewrite run_bind by reflexivity. now rewrite He.
Qed.

Lemma addListener_adds (type : string) (fn : listener) (l : list (string * listener)) :
  (type, fn) ∈ addListener type fn l.
Proof.
  unfold addListener. destruct (isNamedFunction fn); cbn [andb].
  - case_bool_decide; [assumption | apply elem_of_app; right; apply elem_of_cons; now left].
  - apply elem_of_app. right. apply elem_of_cons. now left.
Qed.

Lemma addListener_keeps (x : string * listener) (type : string) (fn : listener)
    (l : list (string * listener)) :
  x ∈ l -> x ∈ addListener type fn l.
Proof.
  intros Hx. unfold addListener. destruct (_ && _); [exact Hx|].
  apply elem_of_app. now left.
Qed.

Ltac lookup_tac :=
  cbn [document set_refs set_trace set_document];
  repeat first [ rewrite lookup_insert_eq | rewrite lookup_insert_ne by discriminate ];
  first [ reflexivity | eassumption ].

Ltac run_tac :=
  cbn beta;
  lazymatch goal with
  | |- (_ ≫= _) _ = _ => erewrite run_bind by run_tac; run_tac
  | |- getElementByIdSafely _ _ = _ =>
    first [ eapply getElementByIdSafely_found; lookup_tac
          | eapply getElementByIdSafely_missing; lookup_tac ]
  | |- updateElement _ _ _ _ _ = _ => apply run_updateElement; lookup_tac
  | |- _ => reflexivity
  end.

Lemma initializeWeatherApp_missing (st : State) :
  ~ hasRequiredElements st ->
  fst (initializeWeatherApp st) = Normal tt
  /\ document (snd (initializeWeatherApp st)) = document st
  /\ exists errors,
       trace (snd (initializeWeatherApp st)) = trace st ++ errors
       /\ forallb isConsoleError errors = true
       /\ last errors = Some (console_error REQUIRED_NOT_FOUND None).
Proof.
  intros Hmissing. unfold hasRequiredElements in Hmissing.
  unfold DOM_ELEMENTS.locationInput, DOM_ELEMENTS.searchButton,
    DOM_ELEMENTS.weatherResult in *.
  destruct (document st !! "location-input"%string) as [ei|] eqn:Hi;
  destruct (document st !! "search-button"%string) as [eb|] eqn:Hb;
  destruct (document st !! "weather-result"%string) as [er|] eqn:Hr.
  1:{ exfalso. apply Hmissing. eauto. }
  all: unfold initializeWeatherApp.
  all: unfold DOM_ELEMENTS.locationInput, DOM_ELEMENTS.searchButton,
    DOM_ELEMENTS.weatherResult.
  all: repeat (erewrite run_bind by run_tac; cbn beta).
  all: cbn [locationInputElement searchButtonElement weatherResultElement set_refs set_trace
         assign_locationInputElement assign_searchButtonElement assign_weatherResultElement
         isNull orb emit fst snd document trace].
  all: (split; [reflexivity|]; split; [reflexivity|]).
  all: rewrite <- ?app_assoc; eexists; split; [reflexivity|split; reflexivity].
Qed.

Lemma initializeWeatherApp_present (st : State) :
  hasRequiredElements st ->
  fst (initializeWeatherApp st) = Normal tt
  /\ initialized (snd (initializeWeatherApp st))
  /\ (exists e, document (snd (initializeWeatherApp st)) !! DOM_ELEMENTS.searchButton
                = Some e
                /\ ("click"%string, handleSearchButtonClick_fn) ∈ listeners e)
  /\ (exists e, document (snd (initializeWeatherApp st)) !! DOM_ELEMENTS.locationInput
                = Some e
                /\ ("keypress"%string, handleLocationInputKeyPress_fn) ∈ listeners e)
  /\ exists calls, trace (snd (initializeWeatherApp st)) = trace st ++ calls
                   /\ existsb isGsap calls = true
                   /\ last calls = Some (console_log INITIALIZED).
Proof.
  intros ([ei Hi] & [eb Hb] & [er Hr]).
  unfold DOM_ELEMENTS.locationInput, DOM_ELEMENTS.searchButton,
    DOM_ELEMENTS.weatherResult in *.
  unfold initializeWeatherApp.
  unfold DOM_ELEMENTS.locationInput, DOM_ELEMENTS.searchButton,
    DOM_ELEMENTS.weatherResult.
  do 6 (erewrite run_bind by run_tac; cbn beta).
  cbn [locationInputElement searchButtonElement weatherResultElement set_refs set_trace
         assign_locationInputElement assign_searchButtonElement assign_weatherResultElement
         isNull orb fst snd document trace].
  unfold initializePageAnimations, animateFloatingElements, animateWeatherIcon,
    setupInputAnimations, setupHoverAnimations, addEventListener.
  repeat (erewrite run_bind by run_tac; cbn beta).
  unfold emit, initialized.
  unfold DOM_ELEMENTS.locationInput, DOM_ELEMENTS.searchButton,
    DOM_ELEMENTS.weatherResult.
  cbn [fst snd locationInputElement searchButtonElement weatherResultElement
       set_refs set_trace set_document document trace].
  repeat first [ rewrite lookup_insert_eq | rewrite lookup_insert_ne by discriminate ].
  rewrite Hr.
  split; [reflexivity|].
  split; [repeat split; eauto|].
  split.
  { eexists. split; [reflexivity|]. cbn [listeners set_listeners].
    do 2 apply addListener_keeps. apply addListener_adds. }
  split.
  { eexists. split; [reflexivity|]. cbn [listeners set_listeners].
    do 2 apply addListener_keeps. apply addListener_adds. }
  rewrite <- !app_assoc. eexists. split; [reflexivity|]. split; reflexivity.
Qed.

(** C9. [initializeWeatherApp] looks the three elements up.  When one of
    them is missing it returns after logging: the page is left as it was
    (no listener is attached), every call it made is a [console.error], and
    the last one is the diagnostic "Required DOM elements not found. App
    initialization failed.".  When the three are there it runs to its end:
    the three references are cached, the click listener is on the submit
    control, the keypress listener is on the text field, and the
    animations are started. *)
Theorem initializeWeatherApp_outcome (st : State) :
  (~ hasRequiredElements st ->
   fst (initializeWeatherApp st) = Normal tt
   /\ document (snd (initializeWeatherApp st)) = document st
   /\ exists errors,
        trace (snd (initializeWeatherApp st)) = trace st ++ errors
        /\ forallb isConsoleError errors = true
        /\ last errors = Some (console_error REQUIRED_NOT_FOUND None))
  /\ (hasRequiredElements st ->
      fst (initializeWeatherApp st) = Normal tt
      /\ initialized (snd (initializeWeatherApp st))
      /\ (exists e, document (snd (initializeWeatherApp st)) !! DOM_ELEMENTS.searchButton
                    = Some e
                    /\ ("click"%string, handleSearchButtonClick_fn) ∈ listeners e)
      /\ (exists e, document (snd (initializeWeatherApp st)) !! DOM_ELEMENTS.locationInput
                    = Some e
                    /\ ("keypress"%string, handleLocationInputKeyPress_fn) ∈ listeners e)
      /\ exists calls, trace (snd (initializeWeatherApp st)) = trace st ++ calls
                       /\ existsb isGsap calls = true
                       /\ last calls = Some (console_log INITIALIZED)).
Proof.
  split; [apply initializeWeatherApp_missing | apply initializeWeatherApp_present].
Qed.

Lemma initializeWeatherApp_outcome_witness :
  (document (snd (initializeWeatherApp pageWithoutResult)) = document pageWithoutResult
   /\ allListeners (snd (initializeWeatherApp pageWithoutResult)) = [])
  /\ initialized (snd (initializeWeatherApp (pageWithInput (js "Paris")))).
Proof.
  split.
  - destruct (initializeWeatherApp_outcome pageWithoutResult) as [Hmissing _].
    destruct Hmissing as (_ & Hdoc & _).
    + intros (_ & _ & [e He]). vm_compute in He. discriminate.
    + split; [exact Hdoc|]. unfold allListeners. rewrite Hdoc. vm_compute. reflexivity.
  - destruct (initializeWeatherApp_outcome (pageWithInput (js "Paris"))) as [_ Hpresent].
    apply Hpresent. repeat split; vm_compute; eauto.
Defined.

(* ================================================================== *)
(** * More on the Request Builder *)
(* ================================================================== *)

Lemma uriUnescaped_not_surrogate (c : N) :
  uriUnescaped c = true -> isLeadingSurrogate c = false /\ isTrailingSurrogate c = false.
Proof.
  unfold uriUnescaped, isAsciiAlpha, isAsciiUpper, isAsciiLower, isAsciiDigit,
    isLeadingSurrogate, isTrailingSurrogate.
  rewrite !orb_true_iff, !andb_true_iff, !andb_false_iff, !N.leb_le, !N.leb_gt, !N.eqb_eq.
  lia.
Qed.

Lemma uriUnescaped_not_whitespace (c : N) :
  uriUnescaped c = true -> isWhiteSpace c = false.
Proof.
  unfold uriUnescaped, isAsciiAlpha, isAsciiUpper, isAsciiLower, isAsciiDigit, isWhiteSpace.
  rewrite !orb_true_iff, !orb_false_iff, !andb_true_iff, !andb_false_iff,
    !N.leb_le, !N.leb_gt, !N.eqb_eq, !N.eqb_neq.
  lia.
Qed.

(** [encodeURIComponent] fails on the strings that are not well formed, on
    no other, and with [URIError] only. *)
Lemma encodeURIComponent_outcome (s : jsstring) :
  match encodeURIComponent s with
  | Normal _ => isWellFormed s = true
  | Throw e => e = URIError /\ isWellFormed s = false
  end.
Proof.
  remember (length s) as n eqn:Hn.
  assert (Hle : (length s <= n)%nat) by lia. clear Hn.
  revert s Hle. induction n as [|n IH]; intros s Hle.
  { destruct s; [reflexivity | simpl in Hle; lia]. }
  destruct s as [|c rest]; [reflexivity|].
  simpl in Hle. cbn [encodeURIComponent isWellFormed].
  destruct (uriUnescaped c) eqn:Hu.
  - destruct (uriUnescaped_not_surrogate _ Hu) as [-> ->].
    specialize (IH rest ltac:(lia)).
    destruct (encodeURIComponent rest); exact IH.
  - destruct (isTrailingSurrogate c); [now split|].
    destruct (isLeadingSurrogate c).
    + destruct rest as [|c2 rest']; [now split|].
      destruct (isTrailingSurrogate c2); [|now split].
      simpl in Hle. specialize (IH rest' ltac:(lia)).
      destruct (encodeURIComponent rest'); exact IH.
    + specialize (IH rest ltac:(lia)).
      destruct (encodeURIComponent rest); exact IH.
Qed.

Lemma buildWeatherApiUrl_cases (location : jsstring) :
  match buildWeatherApiUrl location with
  | Normal url =>
    isWellFormed (trim location) = true
    /\ exists encodedLocation,
         encodeURIComponent (trim location) = Normal encodedLocation
         /\ url = apiUrlOf encodedLocation
  | Throw e => e = URIError /\ isWellFormed (trim location) = false
  end.
Proof.
  unfold buildWeatherApiUrl.
  pose proof (encodeURIComponent_outcome (trim location)) as H.
  destruct (encodeURIComponent (trim location)) as [enc|e]; cbn [cmap].
  - split; [exact H|]. now exists enc.
  - exact H.
Qed.

(** X1. [buildWeatherApiUrl] fails exactly on the locations whose trimmed
    form has an unpaired surrogate, and then with [URIError]; on every
    other location it returns a URL. *)
Theorem buildWeatherApiUrl_outcome (location : jsstring) :
  match buildWeatherApiUrl location with
  | Normal url =>
    isWellFormed (trim location) = true
    /\ exists encodedLocation,
         encodeURIComponent (trim location) = Normal encodedLocation
         /\ url = apiUrlOf encodedLocation
  | Throw e => e = URIError /\ isWellFormed (trim location) = false
  end.
Proof. apply buildWeatherApiUrl_cases. Qed.

Lemma occurrences_app (c : N) (a b : jsstring) :
  occurrences c (a ++ b) = (occurrences c a + occurrences c b)%nat.
Proof. unfold occurrences. now rewrite List.filter_app, length_app. Qed.

Lemma occurrences_safe (c : N) (s : jsstring) :
  uriSafe c = false -> forallb uriSafe s = true -> occurrences c s = 0%nat.
Proof.
  intros Hc. unfold occurrences.
  induction s as [|x s IH]; [reflexivity|].
  cbn [forallb List.filter]. intros [Hx Hs]%andb_prop.
  destruct (N.eqb_spec c x) as [->|_]; [congruence | now apply IH].
Qed.

(** X2. Whatever the location, a URL the builder returns has the three
    parameters of the template and no other: the encoded location brings
    no [&], [=], [?], [#], [/] or space of its own. *)
Theorem buildWeatherApiUrl_query_shape (location url : jsstring) :
  forallb isCodeUnit location = true ->
  buildWeatherApiUrl location = Normal url ->
  occurrences 38 url = 2%nat      (* & *)
  /\ occurrences 61 url = 3%nat   (* = *)
  /\ occurrences 63 url = 1%nat   (* ? *)
  /\ occurrences 35 url = 0%nat   (* # *)
  /\ occurrences 32 url = 0%nat   (* space *)
  /\ occurrences 47 url = 4%nat.  (* /, those of the endpoint *)
Proof.
  intros Hunits Hurl.
  pose proof (buildWeatherApiUrl_cases location) as H. rewrite Hurl in H.
  destruct H as (Hwf & enc & Henc & ->).
  destruct (encodeURIComponent_wellFormed _ Hwf) as (enc' & Henc' & Hsafe).
  rewrite Henc in Henc'. injection Henc' as <-.
  specialize (Hsafe (forallb_trim _ _ Hunits)).
  unfold apiUrlOf. rewrite !occurrences_app.
  rewrite !(occurrences_safe _ enc) by (reflexivity || exact Hsafe).
  repeat split; reflexivity.
Qed.

Lemma buildWeatherApiUrl_query_shape_witness :
  exists url, buildWeatherApiUrl (js "a&b=c #d?e/f") = Normal url
              /\ occurrences 38 url = 2%nat /\ occurrences 35 url = 0%nat.
Proof.
  eexists. split; [reflexivity|].
  destruct (buildWeatherApiUrl_query_shape (js "a&b=c #d?e/f") _ eq_refl eq_refl)
    as (H1 & _ & _ & H2 & _).
  split; [exact H1 | exact H2].
Defined.

Lemma dropWhile_head {A} (p : A -> bool) (x : A) (l : list A) :
  p x = false -> dropWhile p (x :: l) = x :: l.
Proof. intros Hx. simpl. now rewrite Hx. Qed.

Lemma trim_no_whitespace (s : jsstring) :
  forallb (fun c => negb (isWhiteSpace c)) s = true -> trim s = s.
Proof.
  intros Hs. unfold trim, trimStart.
  assert (Hstart : dropWhile isWhiteSpace s = s).
  { destruct s as [|c s]; [reflexivity|]. cbn [forallb] in Hs.
    apply andb_prop in Hs as [Hc _]. apply dropWhile_head.
    now destruct (isWhiteSpace c). }
  rewrite Hstart. clear Hstart.
  induction s as [|c s IH]; [reflexivity|].
  cbn [forallb] in Hs. apply andb_prop in Hs as [Hc Hs].
  rewrite trimEnd_cons. cbn [forallb].
  destruct (isWhiteSpace c); [discriminate|]. cbn [andb]. now rewrite IH.
Qed.

Lemma encodeURIComponent_unreserved (s : jsstring) :
  forallb uriUnescaped s = true -> encodeURIComponent s = Normal s.
Proof.
  induction s as [|c s IH]; [reflexivity|].
  cbn [forallb encodeURIComponent]. intros [Hc Hs]%andb_prop.
  now rewrite Hc, (IH Hs).
Qed.

(** X3. A location made of unreserved characters only (letters, digits and
    [- _ . ! ~ * ' ( )]) goes into the URL as it is. *)
Theorem buildWeatherApiUrl_unreserved (location : jsstring) :
  forallb uriUnescaped location = true ->
  buildWeatherApiUrl location
  = Normal (WEATHER_API_CONFIG.baseUrl ++ js "?key=" ++ WEATHER_API_CONFIG.apiKey
            ++ js "&q=" ++ location ++ js "&" ++ WEATHER_API_CONFIG.options).
Proof.
  intros Hloc. unfold buildWeatherApiUrl.
  rewrite trim_no_whitespace.
  - now rewrite (encodeURIComponent_unreserved _ Hloc).
  - clear -Hloc. induction location as [|c s IH]; [reflexivity|].
    cbn [forallb] in *. apply andb_prop in Hloc as [Hc Hs].
    now rewrite (uriUnescaped_not_whitespace _ Hc), (IH Hs).
Qed.

Lemma buildWeatherApiUrl_unreserved_witness :
  buildWeatherApiUrl (js "Saint-Malo")
  = Normal (js "https://api.weatherapi.com/v1/current.json?key=77cd39c3c35e4552b93173121250909&q=Saint-Malo&aqi=no").
Proof. apply (buildWeatherApiUrl_unreserved (js "Saint-Malo")). reflexivity. Defined.

(* ================================================================== *)
(** * More on the Display Formatter *)
(* ================================================================== *)

Lemma lookupProp_absent (key : jsstring) (props : list (jsstring * jsvalue)) :
  hasOwnProperty key props = false -> lookupProp key props = VUndefined.
Proof.
  induction props as [|[k v] props IH]; [reflexivity|].
  cbn [hasOwnProperty existsb lookupProp fst].
  intros [Hk Hrest]%orb_false_elim. rewrite Hk. now apply IH.
Qed.

(** X4. A parsed body that is an object without a [current] property makes
    [formatWeatherDisplay] throw a [TypeError] (the read of [temp_c] on
    [undefined]), whatever else it holds; so does a body that is [null]
    (the read of [current]). *)
Theorem formatWeatherDisplay_without_current `{Host}
    (props : list (jsstring * jsvalue)) :
  hasOwnProperty (js "current") props = false ->
  formatWeatherDisplay (VObject props) = Throw (TypeError (ReadOfNullish "temp_c"))
  /\ formatWeatherDisplay VNull = Throw (TypeError (ReadOfNullish "current")).
Proof.
  intros Hprops. split; [|reflexivity].
  unfold formatWeatherDisplay. cbn [getProp mbind completion_bind].
  now rewrite (lookupProp_absent _ _ Hprops).
Qed.

Lemma formatWeatherDisplay_without_current_witness :
  @formatWeatherDisplay sampleHost
     (VObject [ (js "error", VObject [ (js "code", VNumber (Finite 1006)) ]) ])
  = Throw (TypeError (ReadOfNullish "temp_c")).
Proof.
  apply (@formatWeatherDisplay_without_current sampleHost
           [ (js "error", VObject [ (js "code", VNumber (Finite 1006)) ]) ]).
  reflexivity.
Defined.

(** X5. A body of the expected shape that lacks [temp_c] does not fail:
    [Math.round(undefined)] is [NaN], and the fragment shows "NaN" where
    the temperature goes. *)
Theorem formatWeatherDisplay_without_temperature `{Host}
    (name country condition : jsstring) :
  formatWeatherDisplay (bodyWithoutTemperature name country condition)
  = Normal (weatherTemplate (name ++ js ", " ++ country) (js "NaN")
              (firstMatch keywordCategories ICON_DEFAULT (toLowerCase condition))
              condition).
Proof.
  unfold formatWeatherDisplay, bodyWithoutTemperature.
  cbn [getProp mbind completion_bind mret completion_ret fmap completion_fmap cmap].
  change (lookupProp (js "current") _) with
    (VObject [ (js "condition", VObject [ (js "text", VString condition) ]) ]).
  change (lookupProp (js "location") _) with
    (VObject [ (js "name", VString name); (js "country", VString country) ]).
  cbn [getProp mbind completion_bind].
  change (lookupProp (js "temp_c") _) with VUndefined.
  change (lookupProp (js "condition") _) with
    (VObject [ (js "text", VString condition) ]).
  change (lookupProp (js "name") _) with (VString name).
  change (lookupProp (js "country") _) with (VString country).
  cbn [getProp ToNumber ToString mbind completion_bind mret completion_ret
       fmap completion_fmap cmap Math_round NumberToString].
  change (lookupProp (js "text") _) with (VString condition).
  rewrite getWeatherEmoji_firstMatch.
  reflexivity.
Qed.






(** X7. The order of the tests decides between keywords: a condition that
    mentions rain gets the sunny, the cloud or the rain emoji, never the
    thunder one, even when it mentions thunder too. *)
Theorem getWeatherEmoji_rain_first `{Host} (c : jsstring) :
  includes (toLowerCase c) (js "rain") = true ->
  getWeatherEmoji (VString c) = Normal ICON_SUNNY
  \/ getWeatherEmoji (VString c) = Normal ICON_CLOUD
  \/ getWeatherEmoji (VString c) = Normal ICON_RAIN.
Proof.
  intros Hrain. rewrite getWeatherEmoji_firstMatch.
  unfold keywordCategories. cbn [firstMatch existsb]. rewrite Hrain.
  destruct (includes (toLowerCase c) (js "sunny") || _); [now left|].
  destruct (includes (toLowerCase c) (js "cloud") || _); [right; now left|].
  cbn [orb]. right. now right.
Qed.

Lemma getWeatherEmoji_rain_first_witness :
  @getWeatherEmoji sampleHost (VString (js "Patchy light rain with thunder"))
  = Normal ICON_RAIN.
Proof.
  destruct (@getWeatherEmoji_rain_first sampleHost (js "Patchy light rain with thunder")
              eq_refl) as [Hc|[Hc|Hc]].
  - vm_compute in Hc. discriminate Hc.
  - vm_compute in Hc. discriminate Hc.
  - exact Hc.
Defined.

(* ================================================================== *)
(** * More on the Fetch Client *)
(* ================================================================== *)

Lemma fetchWeatherData_unbuilt (net : Network) (location : jsstring) (e : exn)
    (st : State) :
  buildWeatherApiUrl location = Throw e ->
  fetchWeatherData net location st = (Throw e, st).
Proof. intros Hurl. unfold fetchWeatherData. now rewrite Hurl. Qed.

Lemma fetchWeatherData_rejected (net : Network) (location url message : jsstring)
    (st : State) :
  buildWeatherApiUrl location = Normal url ->
  net url = Rejected message ->
  fetchWeatherData net location st
  = (Throw (FetchRejection message), set_trace (fun t => t ++ [fetch_call url]) st).
Proof.
  intros Hurl Hnet. unfold fetchWeatherData, fetch. rewrite Hurl.
  erewrite run_bind by reflexivity.
  erewrite (run_bind_throw (_ ≫= _)); [reflexivity|].
  erewrite run_bind by reflexivity. now rewrite Hnet.
Qed.

(** The completion of the Fetch Client for a location: a function of what
    the builder and the network give, the same on every page. *)
Lemma fetchWeatherData_built (net : Network) (location url : jsstring) (st : State) :
  buildWeatherApiUrl location = Normal url ->
  fetchWeatherData net location st
  = (match net url with
     | Resolved r => if ok r then json r else Throw (Error (notAvailable (status r)))
     | Rejected message => Throw (FetchRejection message)
     end,
     set_trace (fun t => t ++ [fetch_call url]) st).
Proof.
  intros Hurl. destruct (net url) as [r|message] eqn:Hnet.
  - now apply fetchWeatherData_run.
  - now apply fetchWeatherData_rejected.
Qed.

(** X8. The Fetch Client never touches the page.  When the URL can be
    built it issues one request, to that URL, and ends as the response
    decides: a transport failure is thrown on as it is, a status outside
    200-299 becomes an [Error], otherwise the outcome of [json()] is
    returned.  When the URL cannot be built it throws before any request. *)
Theorem fetchWeatherData_effects (net : Network) (location : jsstring) (st : State) :
  document (snd (fetchWeatherData net location st)) = document st
  /\ match buildWeatherApiUrl location with
     | Normal url =>
       trace (snd (fetchWeatherData net location st)) = trace st ++ [fetch_call url]
       /\ fst (fetchWeatherData net location st)
          = match net url with
            | Resolved r =>
              if ok r then json r else Throw (Error (notAvailable (status r)))
            | Rejected message => Throw (FetchRejection message)
            end
     | Throw e => fetchWeatherData net location st = (Throw e, st)
     end.
Proof.
  destruct (buildWeatherApiUrl location) as [url|e] eqn:Hurl.
  - rewrite (fetchWeatherData_built _ _ _ _ Hurl). repeat split.
  - rewrite (fetchWeatherData_unbuilt _ _ _ _ Hurl). repeat split.
Qed.

(* ================================================================== *)
(** * More on the Presentation Controller *)
(* ================================================================== *)

Lemma classList_remove_add (tok : string) (l : list string) :
  classList_remove tok (classList_add tok l) = classList_remove tok l.
Proof.
  unfold classList_add, classList_remove. case_bool_decide; [reflexivity|].
  rewrite filter_app. cbn. rewrite decide_False by auto. apply app_nil_r.
Qed.

Ltac state_simpl :=
  cbn beta;
  cbn [locationInputElement searchButtonElement weatherResultElement document trace
       set_refs set_trace set_document isNull fst snd];
  repeat match goal with
         | H : locationInputElement ?s = _ |- context [locationInputElement ?s] => rewrite H
         | H : searchButtonElement ?s = _ |- context [searchButtonElement ?s] => rewrite H
         | H : weatherResultElement ?s = _ |- context [weatherResultElement ?s] => rewrite H
         end;
  repeat first [ rewrite lookup_insert_eq | rewrite lookup_insert_ne by discriminate ];
  repeat match goal with
         | H : document ?s !! ?id = _ |- context [document ?s !! ?id] => rewrite H
         end;
  rewrite ?bool_decide_eq_true_2 by reflexivity;
  rewrite ?bool_decide_eq_false_2 by discriminate;
  cbn [isNull].

Ltac step_tac :=
  state_simpl;
  lazymatch goal with
  | |- (_ ≫= _) _ = _ => erewrite run_bind by step_tac; step_tac
  | |- updateElement _ _ _ _ _ = _ =>
    apply run_updateElement; state_simpl; first [ reflexivity | eassumption ]
  | |- readElement _ _ _ _ = _ =>
    apply run_readElement; state_simpl; first [ reflexivity | eassumption ]
  | |- _ => reflexivity
  end.

Ltac exec := repeat (erewrite run_bind by step_tac; state_simpl).


Ltac button_restored :=
  cbn [classList set_classList set_disabled set_content disabled listeners content_of];
  rewrite ?classList_remove_add; repeat split.

Ltac initialized_after :=
  unfold initialized, DOM_ELEMENTS.locationInput, DOM_ELEMENTS.searchButton,
    DOM_ELEMENTS.weatherResult;
  state_simpl; repeat split; eauto.

Ltac requests_simpl :=
  unfold requests; cbn [trace set_refs set_trace set_document];
  rewrite ?List.filter_app; cbn [List.filter isFetch]; rewrite ?app_nil_r.

Lemma lookup_client_failure_run `{Host} (net : Network) (st : State)
    (ei eb er : Element) (e : exn) :
  initialized st ->
  document st !! DOM_ELEMENTS.locationInput = Some ei ->
  document st !! DOM_ELEMENTS.searchButton = Some eb ->
  document st !! DOM_ELEMENTS.weatherResult = Some er ->
  trim (value ei) <> [] ->
  fst (fetchWeatherData net (trim (value ei)) st) = Throw e ->
  let st' := snd (getWeatherInformation net st) in
  fst (getWeatherInformation net st) = Normal tt
  /\ initialized st'
  /\ (exists e', document st' !! DOM_ELEMENTS.weatherResult = Some e'
        /\ content_of e' = textContent (ERROR_MARK ++ js " Error: " ++ exnMessage e)
        /\ classList e' = [ "weather-result-card"; CSS_CLASSES.errorMessage;
                            CSS_CLASSES.show ])
  /\ (exists e', document st' !! DOM_ELEMENTS.searchButton = Some e'
        /\ disabled e' = false
        /\ classList e' = classList_remove CSS_CLASSES.loading (classList eb)
        /\ listeners e' = listeners eb)
  /\ document st' !! DOM_ELEMENTS.locationInput = Some ei
  /\ requests st' = requests (snd (fetchWeatherData net (trim (value ei)) st))
  /\ In (console_error (js "Weather fetch error:") (Some e)) (trace st').
Proof.
  intros (Hi & Hb & Hr & _) Hei Heb Her Hne Hthrow st'. subst st'.
  unfold DOM_ELEMENTS.locationInput, DOM_ELEMENTS.searchButton,
    DOM_ELEMENTS.weatherResult in *.
  unfold getWeatherInformation. exec.
  rewrite validateLocationInput_truthy, trim_idem.
  destruct (trim (value ei)) as [|c loc] eqn:Hloc; [now destruct Hne|].
  cbn [length Nat.ltb Nat.leb negb]. rewrite <- Hloc in *. clear Hne.
  unfold try_catch_finally.
  destruct (lookupBody net (trim (value ei)) st) as [rb sb] eqn:Hbody. revert Hbody.
  unfold lookupBody, animateButtonLoading. exec.
  destruct (buildWeatherApiUrl (trim (value ei))) as [url|e0] eqn:Hurl.
  - rewrite (fetchWeatherData_built _ _ _ _ Hurl) in Hthrow. cbn [fst] in Hthrow.
    erewrite run_bind_throw
      by (rewrite (fetchWeatherData_built _ _ _ _ Hurl), Hthrow; reflexivity).
    intros [= <- <-].
    destruct (lookupCatch e _) as [rc sc] eqn:Hcatch. revert Hcatch.
    unfold lookupCatch, displayMessage, animateWeatherResult, getElementById. exec.
    unfold emit. intros [= <- <-].
    erewrite lookupFinally_run by (state_simpl; first [ reflexivity | eassumption ]).
    rewrite (fetchWeatherData_built _ _ _ _ Hurl).
    state_simpl. cbn [classList set_classList set_disabled set_content disabled
                      listeners content_of].
    split; [reflexivity|]. split; [initialized_after|].
    split; [eexists; repeat split|].
    split; [eexists; split; [reflexivity|]; button_restored|].
    split; [reflexivity|].
    split; [now requests_simpl|].
    rewrite !in_app_iff. cbn [In]. tauto.
  - rewrite (fetchWeatherData_unbuilt _ _ _ _ Hurl) in Hthrow. cbn [fst] in Hthrow.
    injection Hthrow as ->.
    erewrite run_bind_throw by (apply fetchWeatherData_unbuilt; exact Hurl).
    intros [= <- <-].
    destruct (lookupCatch e _) as [rc sc] eqn:Hcatch. revert Hcatch.
    unfold lookupCatch, displayMessage, animateWeatherResult, getElementById. exec.
    unfold emit. intros [= <- <-].
    erewrite lookupFinally_run by (state_simpl; first [ reflexivity | eassumption ]).
    rewrite (fetchWeatherData_unbuilt _ _ _ _ Hurl).
    state_simpl. cbn [classList set_classList set_disabled set_content disabled
                      listeners content_of].
    split; [reflexivity|]. split; [initialized_after|].
    split; [eexists; repeat split|].
    split; [eexists; split; [reflexivity|]; button_restored|].
    split; [reflexivity|].
    split; [now requests_simpl|].
    rewrite !in_app_iff. cbn [In]. tauto.
Qed.

(** X9. On an initialized page with a field that is not blank, when the
    Fetch Client throws (the URL cannot be built, the transport fails, the
    status is outside 200-299, or the body cannot be parsed), the lookup
    still returns normally: the error is logged, the result container shows
    "Error: " and the message of the error with the error class, the
    trigger control is enabled again with its classes and listeners as
    before (less [loading]), the field keeps its content, and no request
    is made beyond what the client made. *)
Theorem lookup_client_failure `{Host} (net : Network) (st : State)
    (ei eb er : Element) (e : exn) :
  initialized st ->
  document st !! DOM_ELEMENTS.locationInput = Some ei ->
  document st !! DOM_ELEMENTS.searchButton = Some eb ->
  document st !! DOM_ELEMENTS.weatherResult = Some er ->
  trim (value ei) <> [] ->
  fst (fetchWeatherData net (trim (value ei)) st) = Throw e ->
  let st' := snd (getWeatherInformation net st) in
  fst (getWeatherInformation net st) = Normal tt
  /\ initialized st'
  /\ (exists e', document st' !! DOM_ELEMENTS.weatherResult = Some e'
        /\ content_of e' = textContent (ERROR_MARK ++ js " Error: " ++ exnMessage e)
        /\ classList e' = [ "weather-result-card"; CSS_CLASSES.errorMessage;
                            CSS_CLASSES.show ])
  /\ (exists e', document st' !! DOM_ELEMENTS.searchButton = Some e'
        /\ disabled e' = false
        /\ classList e' = classList_remove CSS_CLASSES.loading (classList eb)
        /\ listeners e' = listeners eb)
  /\ document st' !! DOM_ELEMENTS.locationInput = Some ei
  /\ requests st' = requests (snd (fetchWeatherData net (trim (value ei)) st))
  /\ In (console_error (js "Weather fetch error:") (Some e)) (trace st').
Proof. apply lookup_client_failure_run. Qed.

Lemma lookup_client_failure_witness :
  let st' := snd (@getWeatherInformation sampleHost (respondWith badRequest)
                                         (readyPage (js " Paris "))) in
  (content_of <$> document st' !! DOM_ELEMENTS.weatherResult)
  = Some (textContent (ERROR_MARK ++ js " Error: Weather data not available (400)"))
  /\ requests st' = [fetch_call (apiUrlOf (js "Paris"))].
Proof.
  destruct (@lookup_client_failure sampleHost (respondWith badRequest)
              (readyPage (js " Paris "))
              {| classList := []; disabled := false; value := js " Paris ";
                 content_of := textContent []; listeners := [] |}
              emptyElement emptyElement
              (Error (js "Weather data not available (400)")))
    as (_ & _ & (e' & He' & Hcontent & _) & _ & _ & Hreq & _).
  - repeat split; vm_compute; eauto.
  - vm_compute. reflexivity.
  - vm_compute. reflexivity.
  - vm_compute. reflexivity.
  - vm_compute. discriminate.
  - reflexivity.
  - cbv zeta. rewrite He', Hreq.
    split; [cbn [fmap option_fmap option_map]; f_equal; exact Hcontent | reflexivity].
Defined.

(** X10. When the client returns a body and [formatWeatherDisplay] throws
    on it (a field is missing), the lookup ends as for a failed request:
    one request was made, the error is logged and shown in the result
    container with the error class, the control is enabled again. *)
Theorem lookup_formatting_failure_shown `{Host} (net : Network) (st : State)
    (ei eb er : Element) (body : jsvalue) (e : exn) :
  initialized st ->
  document st !! DOM_ELEMENTS.locationInput = Some ei ->
  document st !! DOM_ELEMENTS.searchButton = Some eb ->
  document st !! DOM_ELEMENTS.weatherResult = Some er ->
  trim (value ei) <> [] ->
  fst (fetchWeatherData net (trim (value ei)) st) = Normal body ->
  formatWeatherDisplay body = Throw e ->
  let st' := snd (getWeatherInformation net st) in
  fst (getWeatherInformation net st) = Normal tt
  /\ initialized st'
  /\ (exists e', document st' !! DOM_ELEMENTS.weatherResult = Some e'
        /\ content_of e' = textContent (ERROR_MARK ++ js " Error: " ++ exnMessage e)
        /\ classList e' = [ "weather-result-card"; CSS_CLASSES.errorMessage;
                            CSS_CLASSES.show ])
  /\ (exists e', document st' !! DOM_ELEMENTS.searchButton = Some e'
        /\ disabled e' = false
        /\ classList e' = classList_remove CSS_CLASSES.loading (classList eb)
        /\ listeners e' = listeners eb)
  /\ document st' !! DOM_ELEMENTS.locationInput = Some ei
  /\ (exists url, buildWeatherApiUrl (trim (value ei)) = Normal url
                  /\ requests st' = requests st ++ [fetch_call url])
  /\ In (console_error (js "Weather fetch error:") (Some e)) (trace st').
Proof.
  intros (Hi & Hb & Hr & _) Hei Heb Her Hne Hbody Hformat st'. subst st'.
  unfold DOM_ELEMENTS.locationInput, DOM_ELEMENTS.searchButton,
    DOM_ELEMENTS.weatherResult in *.
  unfold getWeatherInformation. exec.
  rewrite validateLocationInput_truthy, trim_idem.
  destruct (trim (value ei)) as [|c loc] eqn:Hloc; [now destruct Hne|].
  cbn [length Nat.ltb Nat.leb negb]. rewrite <- Hloc in *. clear Hne.
  unfold try_catch_finally.
  destruct (lookupBody net (trim (value ei)) st) as [rb sb] eqn:Hrun. revert Hrun.
  unfold lookupBody, animateButtonLoading. exec.
  destruct (buildWeatherApiUrl (trim (value ei))) as [url|e0] eqn:Hurl;
    [|now rewrite (fetchWeatherData_unbuilt _ _ _ _ Hurl) in Hbody].
  rewrite (fetchWeatherData_built _ _ _ _ Hurl) in Hbody. cbn [fst] in Hbody.
  erewrite run_bind
    by (rewrite (fetchWeatherData_built _ _ _ _ Hurl), Hbody; reflexivity).
  erewrite run_bind_throw by (unfold lift; rewrite Hformat; reflexivity).
  intros [= <- <-].
  destruct (lookupCatch e _) as [rc sc] eqn:Hcatch. revert Hcatch.
  unfold lookupCatch, displayMessage, animateWeatherResult, getElementById. exec.
  unfold emit. intros [= <- <-].
  erewrite lookupFinally_run by (state_simpl; first [ reflexivity | eassumption ]).
  state_simpl.
  split; [reflexivity|]. split; [initialized_after|].
  split; [eexists; repeat split|].
  split; [eexists; split; [reflexivity|]; button_restored|].
  split; [reflexivity|].
  split; [exists url; split; [reflexivity|]; now requests_simpl|].
  rewrite !in_app_iff. cbn [In]. tauto.
Qed.

Lemma lookup_success_run `{Host} (net : Network) (st : State)
    (ei eb er : Element) (body : jsvalue) (fragment : jsstring) :
  initialized st ->
  document st !! DOM_ELEMENTS.locationInput = Some ei ->
  document st !! DOM_ELEMENTS.searchButton = Some eb ->
  document st !! DOM_ELEMENTS.weatherResult = Some er ->
  trim (value ei) <> [] ->
  fst (fetchWeatherData net (trim (value ei)) st) = Normal body ->
  formatWeatherDisplay body = Normal fragment ->
  let st' := snd (getWeatherInformation net st) in
  fst (getWeatherInformation net st) = Normal tt
  /\ initialized st'
  /\ (exists e', document st' !! DOM_ELEMENTS.weatherResult = Some e'
        /\ content_of e' = innerHTML fragment
        /\ classList e' = classList_add CSS_CLASSES.show (classList er))
  /\ (exists e', document st' !! DOM_ELEMENTS.searchButton = Some e'
        /\ disabled e' = false
        /\ classList e' = classList_remove CSS_CLASSES.loading (classList eb)
        /\ listeners e' = listeners eb)
  /\ document st' !! DOM_ELEMENTS.locationInput = Some ei
  /\ (exists url, buildWeatherApiUrl (trim (value ei)) = Normal url
                  /\ requests st' = requests st ++ [fetch_call url])
  /\ List.filter isConsoleError (trace st') = List.filter isConsoleError (trace st)
  /\ In (setTimeout animateWeatherElements_later 300) (trace st').
Proof.
  intros (Hi & Hb & Hr & _) Hei Heb Her Hne Hbody Hformat st'. subst st'.
  unfold DOM_ELEMENTS.locationInput, DOM_ELEMENTS.searchButton,
    DOM_ELEMENTS.weatherResult in *.
  unfold getWeatherInformation. exec.
  rewrite validateLocationInput_truthy, trim_idem.
  destruct (trim (value ei)) as [|c loc] eqn:Hloc; [now destruct Hne|].
  cbn [length Nat.ltb Nat.leb negb]. rewrite <- Hloc in *. clear Hne.
  unfold try_catch_finally.
  destruct (lookupBody net (trim (value ei)) st) as [rb sb] eqn:Hrun. revert Hrun.
  unfold lookupBody, animateButtonLoading, showWeatherResult, animateWeatherResult,
    getElementById. exec.
  destruct (buildWeatherApiUrl (trim (value ei))) as [url|e0] eqn:Hurl;
    [|now rewrite (fetchWeatherData_unbuilt _ _ _ _ Hurl) in Hbody].
  rewrite (fetchWeatherData_built _ _ _ _ Hurl) in Hbody. cbn [fst] in Hbody.
  erewrite run_bind
    by (rewrite (fetchWeatherData_built _ _ _ _ Hurl), Hbody; reflexivity).
  erewrite run_bind by (unfold lift; rewrite Hformat; reflexivity).
  exec. unfold emit. intros [= <- <-].
  erewrite lookupFinally_run by (state_simpl; first [ reflexivity | eassumption ]).
  state_simpl.
  split; [reflexivity|]. split; [initialized_after|].
  split; [eexists; repeat split|].
  split; [eexists; split; [reflexivity|]; button_restored|].
  split; [reflexivity|].
  split; [exists url; split; [reflexivity|]; now requests_simpl|].
  split.
  - rewrite ?List.filter_app. cbn [List.filter isConsoleError]. now rewrite ?app_nil_r.
  - rewrite !in_app_iff. cbn [In]. tauto.
Qed.

(** X11. When the client returns a body that [formatWeatherDisplay]
    accepts, the lookup puts the fragment in the result container as
    markup and adds the class [show] to the classes the container had:
    classes left by an earlier message are not removed.  One request was
    made, nothing was logged as an error, the timer for the element
    animations is set, and the control is enabled again. *)
Theorem lookup_success_shown `{Host} (net : Network) (st : State)
    (ei eb er : Element) (body : jsvalue) (fragment : jsstring) :
  initialized st ->
  document st !! DOM_ELEMENTS.locationInput = Some ei ->
  document st !! DOM_ELEMENTS.searchButton = Some eb ->
  document st !! DOM_ELEMENTS.weatherResult = Some er ->
  trim (value ei) <> [] ->
  fst (fetchWeatherData net (trim (value ei)) st) = Normal body ->
  formatWeatherDisplay body = Normal fragment ->
  let st' := snd (getWeatherInformation net st) in
  fst (getWeatherInformation net st) = Normal tt
  /\ initialized st'
  /\ (exists e', document st' !! DOM_ELEMENTS.weatherResult = Some e'
        /\ content_of e' = innerHTML fragment
        /\ classList e' = classList_add CSS_CLASSES.show (classList er))
  /\ (exists e', document st' !! DOM_ELEMENTS.searchButton = Some e'
        /\ disabled e' = false
        /\ classList e' = classList_remove CSS_CLASSES.loading (classList eb)
        /\ listeners e' = listeners eb)
  /\ document st' !! DOM_ELEMENTS.locationInput = Some ei
  /\ (exists url, buildWeatherApiUrl (trim (value ei)) = Normal url
                  /\ requests st' = requests st ++ [fetch_call url])
  /\ List.filter isConsoleError (trace st') = List.filter isConsoleError (trace st)
  /\ In (setTimeout animateWeatherElements_later 300) (trace st').
Proof. apply lookup_success_run. Qed.

Lemma fetchWeatherData_completion (net : Network) (location : jsstring)
    (st1 st2 : State) :
  fst (fetchWeatherData net location st1) = fst (fetchWeatherData net location st2).
Proof.
  destruct (buildWeatherApiUrl location) as [url|e] eqn:Hurl.
  - now rewrite !(fetchWeatherData_built _ _ _ _ Hurl).
  - now rewrite !(fetchWeatherData_unbuilt _ _ _ _ Hurl).
Qed.

(** X12. A failed lookup followed by a successful one leaves the weather
    fragment in the result container together with the error class of the
    failure: the success path adds [show] and never resets the classes. *)
Theorem success_after_failure_keeps_error_class `{Host} (net1 net2 : Network)
    (st : State) (ei eb er : Element) (e : exn) (body : jsvalue)
    (fragment : jsstring) :
  initialized st ->
  document st !! DOM_ELEMENTS.locationInput = Some ei ->
  document st !! DOM_ELEMENTS.searchButton = Some eb ->
  document st !! DOM_ELEMENTS.weatherResult = Some er ->
  trim (value ei) <> [] ->
  fst (fetchWeatherData net1 (trim (value ei)) st) = Throw e ->
  fst (fetchWeatherData net2 (trim (value ei)) st) = Normal body ->
  formatWeatherDisplay body = Normal fragment ->
  let st2 := snd (getWeatherInformation net2 (snd (getWeatherInformation net1 st))) in
  exists e', document st2 !! DOM_ELEMENTS.weatherResult = Some e'
             /\ content_of e' = innerHTML fragment
             /\ classList e' = [ "weather-result-card"; CSS_CLASSES.errorMessage;
                                 CSS_CLASSES.show ].
Proof.
  intros Hinit Hei Heb Her Hne Hfail Hbody Hformat st2. subst st2.
  destruct (lookup_client_failure_run net1 st ei eb er e Hinit Hei Heb Her Hne Hfail)
    as (_ & Hinit1 & (er1 & Her1 & _ & Hclasses1) & (eb1 & Heb1 & _) & Hei1 & _).
  rewrite (fetchWeatherData_completion _ _ st (snd (getWeatherInformation net1 st)))
    in Hbody.
  destruct (lookup_success_run net2 _ ei eb1 er1 body fragment
              Hinit1 Hei1 Heb1 Her1 Hne Hbody Hformat)
    as (_ & _ & (e' & He' & Hcontent & Hclasses) & _).
  exists e'. split; [exact He'|]. split; [exact Hcontent|].
  rewrite Hclasses, Hclasses1. reflexivity.
Qed.

Lemma success_after_failure_keeps_error_class_witness :
  let st2 :=
    snd (@getWeatherInformation sampleHost
           (respondWith (parisReply (responseBody parisResponse)))
           (snd (@getWeatherInformation sampleHost (respondWith badRequest)
                                        (readyPage (js "Paris"))))) in
  classList <$> document st2 !! DOM_ELEMENTS.weatherResult
  = Some [ "weather-result-card"; CSS_CLASSES.errorMessage; CSS_CLASSES.show ].
Proof.
  destruct (@success_after_failure_keeps_error_class sampleHost
              (respondWith badRequest)
              (respondWith (parisReply (responseBody parisResponse)))
              (readyPage (js "Paris"))
              {| classList := []; disabled := false; value := js "Paris";
                 content_of := textContent []; listeners := [] |}
              emptyElement emptyElement
              (Error (js "Weather data not available (400)"))
              (responseBody parisResponse)
              (weatherTemplate (js "Paris, France") (js "18") ICON_SUNNY (js "Sunny")))
    as (e' & He' & _ & Hclasses).
  - repeat split; vm_compute; eauto.
  - vm_compute. reflexivity.
  - vm_compute. reflexivity.
  - vm_compute. reflexivity.
  - vm_compute. discriminate.
  - reflexivity.
  - reflexivity.
  - vm_compute. reflexivity.
  - cbv zeta. rewrite He'. cbn [fmap option_fmap option_map]. now rewrite Hclasses.
Defined.

(* ================================================================== *)
(** * What a lookup never does *)
(* ================================================================== *)

Lemma post_bind_quiet {A B} (P Q : State -> Prop) (m : M A) (f : A -> M B) :
  preserves P m -> (forall s, P s -> Q s) ->
  (forall a s, P s -> Q (snd (f a s))) ->
  forall s, P s -> Q (snd ((m ≫= f) s)).
Proof.
  intros Hm HPQ Hf s HP. unfold mbind, M_bind.
  specialize (Hm s HP). destruct (m s) as [[a|e] s1]; cbn [snd] in *; auto.
Qed.

Lemma post_bind_then {A B} (P Q : State -> Prop) (m : M A) (f : A -> M B) :
  (forall s, P s -> Q (snd (m s))) -> (forall a, preserves Q (f a)) ->
  forall s, P s -> Q (snd ((m ≫= f) s)).
Proof.
  intros Hm Hf s HP. unfold mbind, M_bind.
  specialize (Hm s HP). destruct (m s) as [[a|e] s1]; cbn [snd] in *; [|exact Hm].
  now apply Hf.
Qed.

Lemma try_catch_finally_post (Q : State -> Prop) (body : M unit)
    (handler : exn -> M unit) (final : M unit) (st : State) :
  Q (snd (body st)) -> (forall e, preserves Q (handler e)) -> preserves Q final ->
  Q (snd (try_catch_finally body handler final st)).
Proof.
  intros Hb Hh Hf. unfold try_catch_finally.
  destruct (body st) as [[[]|e] st1]; cbn [snd] in Hb.
  - specialize (Hf st1 Hb). now destruct (final st1) as [[[]|e'] st2].
  - specialize (Hh e st1 Hb). destruct (handler e st1) as [r st2]; cbn [snd] in Hh.
    specialize (Hf st2 Hh). now destruct (final st2) as [[[]|e'] st3].
Qed.

(** The functions of a lookup keep every invariant that no call other
    than [fetch] and no update that keeps values and listeners can
    break. *)
Section Lookups.
Context `{Host} (I : State -> Prop).
Hypothesis I_emit :
  forall e st, isFetch e = false -> I st -> I (set_trace (fun t => t ++ [e]) st).
Hypothesis I_update :
  forall id e f st, keepsFields f -> I st -> document st !! id = Some e ->
                    I (set_document (insert id (f e)) st).

Local Ltac side :=
  first [ intros ? ?; apply I_emit; [reflexivity | assumption]
        | intros ? ? ? ? ?; apply I_update;
          [intros ?; split; reflexivity | assumption | assumption] ].

Local Ltac stable_auto := repeat preserves_step; try side; eauto with preserves.

Lemma animateWeatherResult_stable : preserves I animateWeatherResult.
Proof. unfold animateWeatherResult, getElementById. stable_auto. Qed.
Hint Resolve animateWeatherResult_stable : preserves.

Lemma displayMessage_stable message messageType :
  preserves I (displayMessage message messageType).
Proof. unfold displayMessage. stable_auto. Qed.
Hint Resolve displayMessage_stable : preserves.

Lemma showWeatherResult_stable : preserves I showWeatherResult.
Proof. unfold showWeatherResult. stable_auto. Qed.
Hint Resolve showWeatherResult_stable : preserves.

Lemma animateButtonLoading_stable isLoading :
  preserves I (animateButtonLoading isLoading).
Proof. unfold animateButtonLoading. stable_auto. Qed.
Hint Resolve animateButtonLoading_stable : preserves.

Lemma lookupCatch_stable error : preserves I (lookupCatch error).
Proof. unfold lookupCatch. stable_auto. Qed.

Lemma lookupFinally_stable : preserves I lookupFinally.
Proof. unfold lookupFinally. stable_auto. Qed.

(** From a state whose requests are known, the [try] block ends with those
    requests or with one more, provided the invariant says so. *)
Lemma lookupBody_post (P : State -> Prop) net locationInput :
  (forall e st, isFetch e = false -> P st -> P (set_trace (fun t => t ++ [e]) st)) ->
  (forall id e f st, keepsFields f -> P st -> document st !! id = Some e ->
                     P (set_document (insert id (f e)) st)) ->
  (forall s, P s -> I s) ->
  (forall s, P s -> I (snd (fetchWeatherData net locationInput s))) ->
  forall s, P s -> I (snd (lookupBody net locationInput s)).
Proof.
  intros P_emit P_update HPI Hfetch. unfold lookupBody.
  apply post_bind_quiet; [apply preserves_gets | exact HPI | intros button].
  apply post_bind_quiet; [| exact HPI |intros _].
  { apply preserves_updateElement. intros st id e HP Hl.
    apply P_update; [intros ?; split; reflexivity | assumption | assumption]. }
  apply post_bind_quiet; [| exact HPI |intros _].
  { unfold animateButtonLoading. repeat preserves_step.
    all: first [ intros ? ?; apply P_emit; [reflexivity | assumption]
               | intros ? ? ? ? ?; apply P_update;
                 [intros ?; split; reflexivity | assumption | assumption] ]. }
  apply post_bind_quiet; [| exact HPI |intros _].
  { apply preserves_emit. intros st HP. now apply P_emit. }
  apply post_bind_then; [exact Hfetch|]. intros weatherData.
  stable_auto.
Qed.

End Lookups.

Lemma atMostOneMore_emit (k : list event) (e : event) (st : State) :
  isFetch e = false -> atMostOneMore k st ->
  atMostOneMore k (set_trace (fun t => t ++ [e]) st).
Proof.
  intros He [Hk|[url Hk]]; [left | right; exists url]; now apply requests_emit.
Qed.

Lemma fetchWeatherData_atMostOneMore (net : Network) (location : jsstring) (st : State) :
  atMostOneMore (requests st) (snd (fetchWeatherData net location st)).
Proof.
  destruct (buildWeatherApiUrl location) as [url|e] eqn:Hurl.
  - rewrite (fetchWeatherData_built _ _ _ _ Hurl). right. exists url.
    unfold requests. cbn [snd trace set_trace]. now rewrite List.filter_app.
  - rewrite (fetchWeatherData_unbuilt _ _ _ _ Hurl). now left.
Qed.

Lemma getWeatherInformation_atMostOneMore `{Host} (net : Network) (st : State) :
  atMostOneMore (requests st) (snd (getWeatherInformation net st)).
Proof.
  set (k := requests st).
  assert (P_emit : forall e s, isFetch e = false -> requests s = k ->
                               requests (set_trace (fun t => t ++ [e]) s) = k)
    by (intros; now apply requests_emit).
  assert (P_update : forall id e f s, keepsFields f -> requests s = k ->
                                      document s !! id = Some e ->
                                      requests (set_document (insert id (f e)) s) = k)
    by (intros; assumption).
  assert (Q_emit : forall e s, isFetch e = false -> atMostOneMore k s ->
                               atMostOneMore k (set_trace (fun t => t ++ [e]) s))
    by (intros; now apply atMostOneMore_emit).
  assert (Q_update : forall id e f s, keepsFields f -> atMostOneMore k s ->
                                      document s !! id = Some e ->
                                      atMostOneMore k (set_document (insert id (f e)) s))
    by (intros; assumption).
  assert (HPQ : forall s, requests s = k -> atMostOneMore k s) by (intros; now left).
  revert st k P_emit P_update Q_emit Q_update HPQ. intros st0 k P_emit P_update Q_emit Q_update HPQ.
  cut (forall s, requests s = k -> atMostOneMore k (snd (getWeatherInformation net s))).
  { intros Hall. now apply Hall. }
  unfold getWeatherInformation.
  apply post_bind_quiet; [apply preserves_gets | exact HPQ | intros input].
  apply post_bind_quiet; [apply preserves_readElement | exact HPQ | intros raw].
  destruct (negb _).
  - intros s Hs. left. now apply (displayMessage_stable (fun s => requests s = k)).
  - intros s Hs. apply try_catch_finally_post.
    + apply (lookupBody_post (atMostOneMore k) Q_emit Q_update
               (fun s => requests s = k)); auto.
      intros s' Hs'. rewrite <- Hs'. apply fetchWeatherData_atMostOneMore.
    + intros e. now apply lookupCatch_stable.
    + now apply lookupFinally_stable.
Qed.

(** X13. A lookup makes at most one request, on every page and whatever the
    network answers: there is no retry.  The same holds for a click and for
    a key press, which start a lookup. *)
Theorem lookup_at_most_one_request `{Host} (net : Network) (st : State)
    (ev : KeyboardEvent) :
  (requests (snd (getWeatherInformation net st)) = requests st
   \/ exists url, requests (snd (getWeatherInformation net st))
                  = requests st ++ [fetch_call url])
  /\ (requests (snd (handleSearchButtonClick net st)) = requests st
      \/ exists url, requests (snd (handleSearchButtonClick net st))
                     = requests st ++ [fetch_call url])
  /\ (requests (snd (handleLocationInputKeyPress net ev st)) = requests st
      \/ exists url, requests (snd (handleLocationInputKeyPress net ev st))
                     = requests st ++ [fetch_call url]).
Proof.
  assert (Hdetached : forall s, atMostOneMore (requests s)
                                  (snd (detached (getWeatherInformation net) s))).
  { intros s. unfold detached.
    pose proof (getWeatherInformation_atMostOneMore net s) as Hs.
    destruct (getWeatherInformation net s) as [[[]|e] s1]; cbn [snd] in *; [exact Hs|].
    now apply atMostOneMore_emit. }
  split; [apply getWeatherInformation_atMostOneMore|]. split.
  - unfold handleSearchButtonClick. erewrite run_bind by reflexivity.
    pose proof (Hdetached (set_trace (fun t => t ++ [preventDefault]) st)) as Hd.
    now rewrite (requests_emit (requests st) preventDefault st eq_refl eq_refl) in Hd.
  - unfold handleLocationInputKeyPress. destruct (bool_decide _); [|now left].
    erewrite run_bind by reflexivity.
    pose proof (Hdetached (set_trace (fun t => t ++ [preventDefault]) st)) as Hd.
    now rewrite (requests_emit (requests st) preventDefault st eq_refl eq_refl) in Hd.
Qed.






(** X15. The two handlers never throw into the dispatcher.  A key other
    than Enter does nothing at all.  A click on a page whose text field
    was never found calls [preventDefault] and leaves the [TypeError] of
    the lookup as an unhandled rejection, the page untouched. *)
Theorem handlers_never_throw `{Host} (net : Network) (st : State) (ev : KeyboardEvent) :
  fst (handleSearchButtonClick net st) = Normal tt
  /\ fst (handleLocationInputKeyPress net ev st) = Normal tt
  /\ (key ev <> js "Enter" -> handleLocationInputKeyPress net ev st = (Normal tt, st))
  /\ (locationInputElement st = None ->
      handleSearchButtonClick net st
      = (Normal tt,
         set_trace (fun t => t ++ [unhandledRejection (TypeError (ReadOfNullish "value"))])
           (set_trace (fun t => t ++ [preventDefault]) st))).
Proof.
  assert (Hdetached : forall s, fst (detached (getWeatherInformation net) s) = Normal tt).
  { intros s. unfold detached. now destruct (getWeatherInformation net s) as [[[]|e] s1]. }
  split; [|split; [|split]].
  - unfold handleSearchButtonClick. erewrite run_bind by reflexivity. apply Hdetached.
  - unfold handleLocationInputKeyPress. destruct (bool_decide _); [|reflexivity].
    erewrite run_bind by reflexivity. apply Hdetached.
  - intros Hkey. unfold handleLocationInputKeyPress.
    now rewrite bool_decide_eq_false_2.
  - intros Hnull. unfold handleSearchButtonClick. erewrite run_bind by reflexivity.
    unfold detached, getWeatherInformation.
    erewrite run_bind by reflexivity. cbn [locationInputElement set_trace].
    rewrite Hnull. reflexivity.
Qed.

Lemma handlers_never_throw_witness :
  @handleLocationInputKeyPress sampleHost (respondWith badRequest) {| key := js "a" |}
     (readyPage (js "Paris"))
  = (Normal tt, readyPage (js "Paris"))
  /\ fst (@handleSearchButtonClick sampleHost (respondWith badRequest)
            (pageWithInput (js "Paris"))) = Normal tt
  /\ requests (snd (@handleSearchButtonClick sampleHost (respondWith badRequest)
                      (pageWithInput (js "Paris")))) = [].
Proof.
  destruct (@handlers_never_throw sampleHost (respondWith badRequest)
              (readyPage (js "Paris")) {| key := js "a" |}) as (_ & _ & Hkey & _).
  destruct (@handlers_never_throw sampleHost (respondWith badRequest)
              (pageWithInput (js "Paris")) {| key := js "a" |}) as (Hclick & _ & _ & Hnull).
  split; [apply Hkey; discriminate|]. split; [exact Hclick|].
  rewrite (Hnull eq_refl). reflexivity.
Defined.

(* ================================================================== *)
(** * More on messages and on initialization *)
(* ================================================================== *)

(** X16. [displayMessage] replaces whatever the result container held and
    whatever classes it had: afterwards the container holds the message as
    text and its classes are the card class, the class of the message type
    ([error-message], [warning-message], none for any other type) and
    [show], in that order.  With no result container it does nothing. *)
Theorem displayMessage_shown (message : jsstring) (messageType : string)
    (st : State) (er : Element) :
  (weatherResultElement st = None ->
   displayMessage message messageType st = (Normal tt, st))
  /\ (weatherResultElement st = Some DOM_ELEMENTS.weatherResult ->
      document st !! DOM_ELEMENTS.weatherResult = Some er ->
      exists e',
        displayMessage message messageType st
        = (Normal tt,
           set_trace
             (fun t => t ++ [ gsap gsap_set (Some (element (Some DOM_ELEMENTS.weatherResult)));
                              gsap gsap_to (Some (element (Some DOM_ELEMENTS.weatherResult))) ])
             (set_document (fun d => <[DOM_ELEMENTS.weatherResult := e']> d) st))
        /\ content_of e' = textContent message
        /\ classList e'
           = "weather-result-card"%string
             :: (if bool_decide (messageType = "error"%string)
                 then [CSS_CLASSES.errorMessage]
                 else if bool_decide (messageType = "warning"%string)
                      then [CSS_CLASSES.warningMessage]
                      else [])
             ++ [CSS_CLASSES.show]
        /\ value e' = value er /\ listeners e' = listeners er
        /\ disabled e' = disabled er).
Proof.
  split.
  - intros Hnull. unfold displayMessage. erewrite run_bind by reflexivity.
    now rewrite Hnull.
  - intros Hr Her.
    unfold DOM_ELEMENTS.weatherResult in *.
    unfold displayMessage, animateWeatherResult, getElementById.
    destruct (bool_decide (messageType = "error"%string));
      [|destruct (bool_decide (messageType = "warning"%string))].
    all: eexists; split;
      [ exec; erewrite run_updateElement by (state_simpl; reflexivity);
        unfold set_trace, set_document;
        cbn [document trace locationInputElement searchButtonElement
             weatherResultElement];
        rewrite !insert_insert_eq, <- ?app_assoc; reflexivity
      | repeat split ].
Qed.

Lemma displayMessage_shown_witness :
  (classList <$> document (snd (displayMessage (js "hello") "info"
                                  (snd (displayMessage (js "oops") "error"
                                          (readyPage [])))))
                 !! DOM_ELEMENTS.weatherResult)
  = Some [ "weather-result-card"; CSS_CLASSES.show ].
Proof.
  destruct (displayMessage_shown (js "oops") "error" (readyPage []) emptyElement)
    as [_ Hfirst].
  destruct (Hfirst eq_refl) as (e1 & Hrun1 & _); [vm_compute; reflexivity|].
  rewrite Hrun1. cbn [snd].
  destruct (displayMessage_shown (js "hello") "info"
              (set_trace
                 (fun t => t ++ [ gsap gsap_set (Some (element (Some DOM_ELEMENTS.weatherResult)));
                                  gsap gsap_to (Some (element (Some DOM_ELEMENTS.weatherResult))) ])
                 (set_document (fun d => <[DOM_ELEMENTS.weatherResult := e1]> d)
                               (readyPage [])))
              e1)
    as [_ Hsecond].
  destruct (Hsecond eq_refl) as (e2 & Hrun2 & _ & Hclasses & _).
  { cbn [document set_trace set_document]. apply lookup_insert_eq. }
  rewrite Hrun2. cbn [snd document set_trace set_document].
  rewrite lookup_insert_eq. cbn [fmap option_fmap option_map]. now rewrite Hclasses.
Defined.

Lemma addListener_closure (type : string) (fn : listener)
    (l : list (string * listener)) :
  isNamedFunction fn = false -> addListener type fn l = l ++ [(type, fn)].
Proof. intros Hfn. unfold addListener. now rewrite Hfn. Qed.

Lemma addListener_present (type : string) (fn : listener)
    (l : list (string * listener)) :
  isNamedFunction fn = true -> (type, fn) ∈ l -> addListener type fn l = l.
Proof.
  intros Hfn Hin. unfold addListener. rewrite Hfn. cbn [andb].
  now rewrite bool_decide_eq_true_2.
Qed.

(** The listeners the three elements have after [initializeWeatherApp], in
    the order of their registration. *)
Lemma initializeWeatherApp_listeners (st : State) (ei eb er : Element) :
  document st !! DOM_ELEMENTS.locationInput = Some ei ->
  document st !! DOM_ELEMENTS.searchButton = Some eb ->
  document st !! DOM_ELEMENTS.weatherResult = Some er ->
  exists ei' eb',
    document (snd (initializeWeatherApp st)) !! DOM_ELEMENTS.locationInput = Some ei'
    /\ document (snd (initializeWeatherApp st)) !! DOM_ELEMENTS.searchButton = Some eb'
    /\ document (snd (initializeWeatherApp st)) !! DOM_ELEMENTS.weatherResult = Some er
    /\ listeners ei'
       = addListener "keypress" handleLocationInputKeyPress_fn
           (listeners ei ++ [ ("focus"%string, inputFocus_fn);
                              ("blur"%string, inputBlur_fn) ])
         ++ [ ("mouseenter"%string, inputMouseEnter_fn);
              ("mouseleave"%string, inputMouseLeave_fn) ]
    /\ listeners eb'
       = addListener "click" handleSearchButtonClick_fn (listeners eb)
         ++ [ ("mouseenter"%string, buttonMouseEnter_fn);
              ("mouseleave"%string, buttonMouseLeave_fn) ]
    /\ value ei' = value ei.
Proof.
  intros Hi Hb Hr.
  unfold DOM_ELEMENTS.locationInput, DOM_ELEMENTS.searchButton,
    DOM_ELEMENTS.weatherResult in *.
  unfold initializeWeatherApp.
  unfold DOM_ELEMENTS.locationInput, DOM_ELEMENTS.searchButton,
    DOM_ELEMENTS.weatherResult.
  do 6 (erewrite run_bind by run_tac; cbn beta).
  cbn [locationInputElement searchButtonElement weatherResultElement set_refs set_trace
         assign_locationInputElement assign_searchButtonElement assign_weatherResultElement
         isNull orb fst snd document trace].
  unfold initializePageAnimations, animateFloatingElements, animateWeatherIcon,
    setupInputAnimations, setupHoverAnimations, addEventListener.
  repeat (erewrite run_bind by run_tac; cbn beta).
  unfold emit.
  cbn [fst snd locationInputElement searchButtonElement weatherResultElement
       set_refs set_trace set_document document trace].
  repeat first [ rewrite lookup_insert_eq | rewrite lookup_insert_ne by discriminate ].
  rewrite Hr.
  eexists. eexists. split; [reflexivity|]. split; [reflexivity|]. split; [reflexivity|].
  cbn [listeners set_listeners value].
  rewrite (addListener_closure "focus" inputFocus_fn) by reflexivity.
  rewrite (addListener_closure "blur" inputBlur_fn) by reflexivity.
  rewrite (addListener_closure "mouseenter" inputMouseEnter_fn) by reflexivity.
  rewrite (addListener_closure "mouseleave" inputMouseLeave_fn) by reflexivity.
  rewrite (addListener_closure "mouseenter" buttonMouseEnter_fn) by reflexivity.
  rewrite (addListener_closure "mouseleave" buttonMouseLeave_fn) by reflexivity.
  rewrite <- !app_assoc. repeat split.
Qed.

(** X17. Running [initializeWeatherApp] a second time (the script calls it
    at once when the document is no longer loading and also registers it
    for [DOMContentLoaded]) does not register the click and the keypress
    handlers again, but it does add the two hover closures of the button
    and the focus, blur and hover closures of the text field once more. *)
Theorem initializeWeatherApp_twice (st : State) :
  hasRequiredElements st ->
  let st1 := snd (initializeWeatherApp st) in
  let st2 := snd (initializeWeatherApp st1) in
  exists ei1 eb1 ei2 eb2,
    document st1 !! DOM_ELEMENTS.locationInput = Some ei1
    /\ document st1 !! DOM_ELEMENTS.searchButton = Some eb1
    /\ document st2 !! DOM_ELEMENTS.locationInput = Some ei2
    /\ document st2 !! DOM_ELEMENTS.searchButton = Some eb2
    /\ listeners eb2
       = listeners eb1 ++ [ ("mouseenter"%string, buttonMouseEnter_fn);
                            ("mouseleave"%string, buttonMouseLeave_fn) ]
    /\ listeners ei2
       = listeners ei1 ++ [ ("focus"%string, inputFocus_fn);
                            ("blur"%string, inputBlur_fn);
                            ("mouseenter"%string, inputMouseEnter_fn);
                            ("mouseleave"%string, inputMouseLeave_fn) ].
Proof.
  intros ([ei Hi] & [eb Hb] & [er Hr]) st1 st2. subst st1 st2.
  destruct (initializeWeatherApp_listeners st ei eb er Hi Hb Hr)
    as (ei1 & eb1 & Hi1 & Hb1 & Hr1 & Hli1 & Hlb1 & _).
  destruct (initializeWeatherApp_listeners _ ei1 eb1 er Hi1 Hb1 Hr1)
    as (ei2 & eb2 & Hi2 & Hb2 & _ & Hli2 & Hlb2 & _).
  exists ei1, eb1, ei2, eb2. repeat (split; [assumption|]).
  split.
  - rewrite Hlb2. rewrite addListener_present; [reflexivity | reflexivity |].
    rewrite Hlb1. apply elem_of_app. left. apply addListener_adds.
  - rewrite Hli2. rewrite addListener_present; [|reflexivity|].
    + now rewrite <- app_assoc.
    + apply elem_of_app. left. rewrite Hli1. apply elem_of_app. left.
      apply addListener_adds.
Qed.

Lemma initializeWeatherApp_twice_witness :
  let st2 := snd (initializeWeatherApp (snd (initializeWeatherApp (pageWithInput [])))) in
  listeners <$> document st2 !! DOM_ELEMENTS.searchButton
  = Some [ ("click"%string, handleSearchButtonClick_fn);
           ("mouseenter"%string, buttonMouseEnter_fn);
           ("mouseleave"%string, buttonMouseLeave_fn);
           ("mouseenter"%string, buttonMouseEnter_fn);
           ("mouseleave"%string, buttonMouseLeave_fn) ].
Proof.
  destruct (initializeWeatherApp_twice (pageWithInput []))
    as (ei1 & eb1 & ei2 & eb2 & _ & Hb1 & _ & Hb2 & Hlb & _).
  - repeat split; vm_compute; eauto.
  - cbv zeta. rewrite Hb2. cbn [fmap option_fmap option_map]. rewrite Hlb.
    vm_compute in Hb1. injection Hb1 as <-. reflexivity.
Defined.





Lemma includes_prefix (p b : jsstring) : includes (p ++ b) p = true.
Proof. apply (includes_middle [] p b). Qed.

(** X19. [formatWeatherDisplay] escapes nothing: whatever characters the
    place name, the country and the condition text hold (markup included),
    "name, country" and the condition text stand in the fragment as they
    are. *)
Theorem formatWeatherDisplay_verbatim `{Host} (w : WeatherResponse) :
  exists fragment,
    formatWeatherDisplay (responseBody w) = Normal fragment
    /\ includes fragment (location_name w ++ js ", " ++ location_country w) = true
    /\ includes fragment (condition_text w) = true.
Proof.
  eexists. split; [apply formatWeatherDisplay_responseBody|].
  unfold weatherTemplate. split.
  - do 3 apply includes_app_r. apply includes_prefix.
  - do 13 apply includes_app_r. apply includes_prefix.
Qed.

Lemma lookup_formatting_failure_shown_witness :
  let st' := snd (@getWeatherInformation sampleHost
                    (respondWith (parisReply (VObject [])))
                    (readyPage (js "Paris"))) in
  (content_of <$> document st' !! DOM_ELEMENTS.weatherResult)
  = Some (textContent (ERROR_MARK ++ js " Error: engine error"))
  /\ requests st' = [fetch_call (apiUrlOf (js "Paris"))].
Proof.
  destruct (@lookup_formatting_failure_shown sampleHost
              (respondWith (parisReply (VObject [])))
              (readyPage (js "Paris"))
              {| classList := []; disabled := false; value := js "Paris";
                 content_of := textContent []; listeners := [] |}
              emptyElement emptyElement (VObject [])
              (TypeError (ReadOfNullish "temp_c")))
    as (_ & _ & (e' & He' & Hcontent & _) & _ & _ & (url & Hurl & Hreq) & _).
  - repeat split; vm_compute; eauto.
  - vm_compute. reflexivity.
  - vm_compute. reflexivity.
  - vm_compute. reflexivity.
  - vm_compute. discriminate.
  - reflexivity.
  - reflexivity.
  - cbv zeta. rewrite He', Hreq.
    split; [cbn [fmap option_fmap option_map]; f_equal; exact Hcontent|].
    vm_compute in Hurl. injection Hurl as <-. reflexivity.
Defined.

Lemma lookup_success_shown_witness :
  let st' := snd (@getWeatherInformation sampleHost
                    (respondWith (parisReply (responseBody parisResponse)))
                    (readyPage (js "Paris"))) in
  (content_of <$> document st' !! DOM_ELEMENTS.weatherResult)
  = Some (innerHTML (weatherTemplate (js "Paris, France") (js "18") ICON_SUNNY
                                     (js "Sunny")))
  /\ buttonDisabled st' = Some false.
Proof.
  destruct (@lookup_success_shown sampleHost
              (respondWith (parisReply (responseBody parisResponse)))
              (readyPage (js "Paris"))
              {| classList := []; disabled := false; value := js "Paris";
                 content_of := textContent []; listeners := [] |}
              emptyElement emptyElement (responseBody parisResponse)
              (weatherTemplate (js "Paris, France") (js "18") ICON_SUNNY (js "Sunny")))
    as (_ & (_ & Hb & _) & (e' & He' & Hcontent & _) & (eb' & Heb' & Hdis & _) & _).
  - repeat split; vm_compute; eauto.
  - vm_compute. reflexivity.
  - vm_compute. reflexivity.
  - vm_compute. reflexivity.
  - vm_compute. discriminate.
  - reflexivity.
  - vm_compute. reflexivity.
  - cbv zeta. rewrite He'.
    split; [cbn [fmap option_fmap option_map]; f_equal; exact Hcontent|].
    unfold buttonDisabled. rewrite Hb. cbn [deref]. rewrite Heb'.
    cbn [fmap option_fmap option_map]. now rewrite Hdis.
Defined.
